(** * Sensors module: acquisition, calibration and magnetometer bias nulling

    A shallow embedding of [flight/Modules/Sensors/sensors.c].

    The C [float] is IEEE 754 binary32; it is modelled by [spec_float] with
    the operations of [SpecFloat] at precision 24 and maximal exponent 128,
    rounding to nearest even.  [double] (which only appears through [M_PI])
    is the same with precision 53 and maximal exponent 1024.  Module
    statics, the UAVObject store, the driver queues and the local [error]
    flag of the task are explicit state; calls with an outside effect
    (publishing an object, the alarm, the watchdog, the delay) are recorded
    in a chronological trace. *)

From Stdlib Require Import ZArith PArith Bool List Lia.
From Stdlib Require Import QArith Qabs Lqa.
Close Scope Q_scope.
From Stdlib Require Import Floats.SpecFloat.
Import ListNotations.

Set Implicit Arguments.

(** ** Arithmetic of [float] and [double] *)

Module F32.
Definition prec : Z := 24.
Definition emax : Z := 128.

Definition mul : spec_float -> spec_float -> spec_float := SFmul prec emax.
Definition add : spec_float -> spec_float -> spec_float := SFadd prec emax.
Definition sub : spec_float -> spec_float -> spec_float := SFsub prec emax.
Definition div : spec_float -> spec_float -> spec_float := SFdiv prec emax.
Definition sqrtf : spec_float -> spec_float := SFsqrt prec emax.
Definition neg : spec_float -> spec_float := SFopp.
Definition eqb : spec_float -> spec_float -> bool := SFeqb.
Definition ltb : spec_float -> spec_float -> bool := SFltb.
Definition leb : spec_float -> spec_float -> bool := SFleb.

(** Conversion of an integer, as C does for an integer operand of a
    [float] operation. *)
Definition of_int (n : Z) : spec_float := binary_normalize prec emax n 0 false.

(** Conversion [(float) d] of a [double]: one rounding to binary32. *)
Definition of_double (d : spec_float) : spec_float :=
  match d with
  | S754_finite s m e => binary_normalize prec emax (cond_Zopp s (Zpos m)) e s
  | _ => d
  end.
End F32.

Module F64.
Definition prec : Z := 53.
Definition emax : Z := 1024.

Definition mul : spec_float -> spec_float -> spec_float := SFmul prec emax.
Definition div : spec_float -> spec_float -> spec_float := SFdiv prec emax.

(** Every binary32 number is a binary64 number, but its canonical mantissa
    and exponent differ: the promotion renormalises. *)
Definition of_float (f : spec_float) : spec_float :=
  match f with
  | S754_finite s m e => binary_normalize prec emax (cond_Zopp s (Zpos m)) e s
  | _ => f
  end.
End F64.

Definition float := spec_float.

Declare Scope f32_scope.
Delimit Scope f32_scope with f32.
Bind Scope f32_scope with float.
Infix "*" := F32.mul : f32_scope.
Infix "+" := F32.add : f32_scope.
Infix "-" := F32.sub : f32_scope.
Infix "/" := F32.div : f32_scope.
Notation "- x" := (F32.neg x) : f32_scope.

Definition is_nan (f : float) : bool :=
  match f with S754_nan => true | _ => false end.

Definition is_zero (f : float) : bool :=
  match f with S754_zero _ => true | _ => false end.

(** Zero, infinities and NaN excluded: an ordinary number or a zero. *)
Definition is_finite (f : float) : bool :=
  match f with S754_zero _ | S754_finite _ _ _ => true | _ => false end.

Definition f0 : float := Eval cbv in F32.of_int 0.
Definition f1 : float := Eval cbv in F32.of_int 1.
Definition f2 : float := Eval cbv in F32.of_int 2.
Definition f3 : float := Eval cbv in F32.of_int 3.
Definition f5 : float := Eval cbv in F32.of_int 5.
Definition f100 : float := Eval cbv in F32.of_int 100.
Definition f180 : float := Eval cbv in F32.of_int 180.

(** [M_PI] of <math.h>, a [double]: 0x1.921fb54442d18p+1. *)
Definition M_PI : spec_float := S754_finite false 7074237752028440 (-51).

(** ** C arrays of three elements *)

Record arr3 (A : Type) := mk3 { el0 : A; el1 : A; el2 : A }.
Arguments mk3 {A} _ _ _.

Inductive idx3 := I0 | I1 | I2.

Definition nth3 {A} (a : arr3 A) (i : idx3) : A :=
  match i with I0 => el0 a | I1 => el1 a | I2 => el2 a end.

Definition mat3 := arr3 (arr3 float).

Notation "a [[ i ]]" := (nth3 a i) (at level 1, format "a [[ i ]]").
Notation "a [[ i , j ]]" := (nth3 (nth3 a i) j) (at level 1, format "a [[ i , j ]]").

(** Element indices of the generated UAVObject headers (not under the
    module's sources): the X, Y and Z elements of a three-element field are
    its elements 0, 1 and 2; roll, pitch and yaw likewise. *)
Definition REVOCALIBRATION_MAGBIAS_X := I0.
Definition REVOCALIBRATION_MAGBIAS_Y := I1.
Definition REVOCALIBRATION_MAGBIAS_Z := I2.
Definition REVOCALIBRATION_MAGSCALE_X := I0.
Definition REVOCALIBRATION_MAGSCALE_Y := I1.
Definition REVOCALIBRATION_MAGSCALE_Z := I2.
Definition INERTIALSENSORSETTINGS_ACCELBIAS_X := I0.
Definition INERTIALSENSORSETTINGS_ACCELBIAS_Y := I1.
Definition INERTIALSENSORSETTINGS_ACCELBIAS_Z := I2.
Definition INERTIALSENSORSETTINGS_ACCELSCALE_X := I0.
Definition INERTIALSENSORSETTINGS_ACCELSCALE_Y := I1.
Definition INERTIALSENSORSETTINGS_ACCELSCALE_Z := I2.
Definition INERTIALSENSORSETTINGS_GYROSCALE_X := I0.
Definition INERTIALSENSORSETTINGS_GYROSCALE_Y := I1.
Definition INERTIALSENSORSETTINGS_GYROSCALE_Z := I2.
Definition ATTITUDESETTINGS_BOARDROTATION_ROLL := I0.
Definition ATTITUDESETTINGS_BOARDROTATION_PITCH := I1.
Definition ATTITUDESETTINGS_BOARDROTATION_YAW := I2.
Definition ATTITUDESETTINGS_BIASCORRECTGYRO_TRUE : Z := 1.

(** ** Driver samples and UAVObject records

    Each C struct is a record in a module of the struct's name, so that a
    field reads [AccelsData.x d] for the C [d.x]. *)

Module pios_sensor_accel_data.
Record t := mk { x : float; y : float; z : float; temp : float }.
End pios_sensor_accel_data.

Module pios_sensor_gyro_data.
Record t := mk { x : float; y : float; z : float; temp : float }.
End pios_sensor_gyro_data.

Module pios_sensor_mag_data.
Record t := mk { x : float; y : float; z : float }.
End pios_sensor_mag_data.

Module AccelsData.
Record t := mk { x : float; y : float; z : float; temperature : float }.
End AccelsData.

Module GyrosData.
Record t := mk { x : float; y : float; z : float; temperature : float }.
End GyrosData.

Module MagnetometerData.
Record t := mk { x : float; y : float; z : float }.
End MagnetometerData.

Module MagBiasData.
Record t := mk { x : float; y : float; z : float }.
End MagBiasData.

Module GyrosBiasData.
Record t := mk { x : float; y : float; z : float }.
End GyrosBiasData.

Module HomeLocationData.
Record t := mk { Be : arr3 float }.
End HomeLocationData.

Module AttitudeActualData.
Record t := mk { q1 : float; q2 : float; q3 : float; q4 : float;
                   Roll : float; Pitch : float; Yaw : float }.
End AttitudeActualData.

(** [BoardRotation] is an array of three [int16_t] in hundredths of a degree and
    [BiasCorrectGyro] a [uint8_t] enumeration. *)
Module AttitudeSettingsData.
Record t := mk { BoardRotation : arr3 Z; BiasCorrectGyro : Z }.
End AttitudeSettingsData.

Module InertialSensorSettingsData.
Record t := mk { AccelBias : arr3 float; AccelScale : arr3 float;
                   GyroScale : arr3 float }.
End InertialSensorSettingsData.

Module INSSettingsData.
Record t := mk { MagBiasNullingRate : float }.
End INSSettingsData.

Module RevoCalibrationData.
Record t := mk { MagBias : arr3 float; MagScale : arr3 float }.
End RevoCalibrationData.

(** ** State *)

(** The file-scope variables of sensors.c. *)
Record Statics := mkStatics {
  revoCal : RevoCalibrationData.t;
  insSettings : INSSettingsData.t;
  bias_correct_gyro : bool;
  mag_bias : arr3 float;
  mag_scale : arr3 float;
  accel_bias : arr3 float;
  accel_scale : arr3 float;
  gyro_scale : arr3 float;
  Rbs : mat3;
  rotate : Z                      (* int8_t *)
}.

(** The UAVObject store, last value wins. *)
Record UAVObjects := mkUAVObjects {
  Accels : AccelsData.t;
  Gyros : GyrosData.t;
  Magnetometer : MagnetometerData.t;
  MagBias : MagBiasData.t;
  GyrosBias : GyrosBiasData.t;
  HomeLocation : HomeLocationData.t;
  AttitudeActual : AttitudeActualData.t;
  AttitudeSettings : AttitudeSettingsData.t;
  InertialSensorSettings : InertialSensorSettingsData.t;
  INSSettings : INSSettingsData.t;
  RevoCalibration : RevoCalibrationData.t
}.

(** What [PIOS_SENSORS_GetQueue] returns for each sensor kind: [None] is the
    NULL handle (no such queue registered), [Some q] a queue holding the
    samples [q], oldest first, that a receive obtains within its timeout. *)
Record Queues := mkQueues {
  gyro_queue : option (list pios_sensor_gyro_data.t);
  accel_queue : option (list pios_sensor_accel_data.t);
  mag_queue : option (list pios_sensor_mag_data.t)
}.

Inductive alarm_severity := SYSTEMALARMS_ALARM_CRITICAL.

(** Calls whose effect is outside the module. *)
Inductive event :=
| PIOS_WDG_UpdateFlag                    (* of PIOS_WDG_SENSORS *)
| vTaskDelayUntil
| AlarmsClear                            (* of SYSTEMALARMS_ALARM_SENSORS *)
| AlarmsSet (sev : alarm_severity)       (* of SYSTEMALARMS_ALARM_SENSORS *)
| AccelsSet (d : AccelsData.t)
| GyrosSet (d : GyrosData.t)
| MagnetometerSet (d : MagnetometerData.t)
| MagBiasSet (d : MagBiasData.t).

Record World := mkWorld {
  statics : Statics;
  objects : UAVObjects;
  queues : Queues;
  trace : list event                     (* oldest first *)
}.

Definition emit (e : event) (w : World) : World :=
  mkWorld (statics w) (objects w) (queues w) (trace w ++ [e]).

Definition set_objects (o : UAVObjects) (w : World) : World :=
  mkWorld (statics w) o (queues w) (trace w).

Definition set_statics (g : Statics) (w : World) : World :=
  mkWorld g (objects w) (queues w) (trace w).

Definition set_queues (q : Queues) (w : World) : World :=
  mkWorld (statics w) (objects w) q (trace w).

Definition store_Accels (d : AccelsData.t) (o : UAVObjects) : UAVObjects :=
  mkUAVObjects d (Gyros o) (Magnetometer o) (MagBias o) (GyrosBias o)
    (HomeLocation o) (AttitudeActual o) (AttitudeSettings o)
    (InertialSensorSettings o) (INSSettings o) (RevoCalibration o).

Definition store_Gyros (d : GyrosData.t) (o : UAVObjects) : UAVObjects :=
  mkUAVObjects (Accels o) d (Magnetometer o) (MagBias o) (GyrosBias o)
    (HomeLocation o) (AttitudeActual o) (AttitudeSettings o)
    (InertialSensorSettings o) (INSSettings o) (RevoCalibration o).

Definition store_Magnetometer (d : MagnetometerData.t) (o : UAVObjects) : UAVObjects :=
  mkUAVObjects (Accels o) (Gyros o) d (MagBias o) (GyrosBias o)
    (HomeLocation o) (AttitudeActual o) (AttitudeSettings o)
    (InertialSensorSettings o) (INSSettings o) (RevoCalibration o).

Definition store_MagBias (d : MagBiasData.t) (o : UAVObjects) : UAVObjects :=
  mkUAVObjects (Accels o) (Gyros o) (Magnetometer o) d (GyrosBias o)
    (HomeLocation o) (AttitudeActual o) (AttitudeSettings o)
    (InertialSensorSettings o) (INSSettings o) (RevoCalibration o).

(** The [...Set] calls of the UAVObject interface: store the value and
    notify (the notification is the trace entry). *)
Definition do_AccelsSet (d : AccelsData.t) (w : World) : World :=
  emit (AccelsSet d) (set_objects (store_Accels d (objects w)) w).

Definition do_GyrosSet (d : GyrosData.t) (w : World) : World :=
  emit (GyrosSet d) (set_objects (store_Gyros d (objects w)) w).

Definition do_MagnetometerSet (d : MagnetometerData.t) (w : World) : World :=
  emit (MagnetometerSet d) (set_objects (store_Magnetometer d (objects w)) w).

Definition do_MagBiasSet (d : MagBiasData.t) (w : World) : World :=
  emit (MagBiasSet d) (set_objects (store_MagBias d (objects w)) w).

Local Open Scope f32_scope.

(** Modelled from the spec: [rot_mult] of the CoordinateConversions library
    is not under the module's sources.  It is the matrix-vector product in
    the row convention, for which the identity matrix leaves the vector as it
    is; with [transpose] set the matrix is read by columns. *)
Definition rot_mult (R : mat3) (vec : arr3 float) (transpose : bool) : arr3 float :=
  if transpose then
    mk3 (R[[I0,I0]] * vec[[I0]] + R[[I1,I0]] * vec[[I1]] + R[[I2,I0]] * vec[[I2]])
        (R[[I0,I1]] * vec[[I0]] + R[[I1,I1]] * vec[[I1]] + R[[I2,I1]] * vec[[I2]])
        (R[[I0,I2]] * vec[[I0]] + R[[I1,I2]] * vec[[I1]] + R[[I2,I2]] * vec[[I2]])
  else
    mk3 (R[[I0,I0]] * vec[[I0]] + R[[I0,I1]] * vec[[I1]] + R[[I0,I2]] * vec[[I2]])
        (R[[I1,I0]] * vec[[I0]] + R[[I1,I1]] * vec[[I1]] + R[[I1,I2]] * vec[[I2]])
        (R[[I2,I0]] * vec[[I0]] + R[[I2,I1]] * vec[[I1]] + R[[I2,I2]] * vec[[I2]]).

(** The functions of libm and of the CoordinateConversions library that the
    module calls and whose code is elsewhere.  A quaternion is a
    C array of four [float], here a tuple. *)
Record Library := mkLibrary {
  cosf : float -> float;
  sinf : float -> float;
  Quaternion2R : float * float * float * float -> mat3;
  RPY2Quaternion : arr3 float -> float * float * float * float
}.

(** C truth value of an integer. *)
Definition truthy (n : Z) : bool := negb (n =? 0)%Z.

(** ** The module's functions *)

Section Sensors.

Variable L : Library.

(** The rotation into the board frame, the block that the three update
    functions share: [rot_mult] by [Rbs] when [rotate] is set. *)
Definition board_rotate (g : Statics) (v : arr3 float) : arr3 float :=
  if truthy (rotate g) then rot_mult (Rbs g) v false else v.

(** [update_accels]: calibration and rotation of the raw accel data. *)
Definition update_accels (accels : pios_sensor_accel_data.t) (w : World) : World :=
  let g := statics w in
  let accels_out :=
    mk3 (pios_sensor_accel_data.x accels * (accel_scale g)[[I0]] - (accel_bias g)[[I0]])
        (pios_sensor_accel_data.y accels * (accel_scale g)[[I1]] - (accel_bias g)[[I1]])
        (pios_sensor_accel_data.z accels * (accel_scale g)[[I2]] - (accel_bias g)[[I2]]) in
  let v := board_rotate g accels_out in
  let accelsData :=
    AccelsData.mk v[[I0]] v[[I1]] v[[I2]] (pios_sensor_accel_data.temp accels) in
  do_AccelsSet accelsData w.

(** [update_gyros]: calibration and rotation of the raw gyro data, then the
    bias of the state estimator. *)
Definition update_gyros (gyros : pios_sensor_gyro_data.t) (w : World) : World :=
  let g := statics w in
  let gyros_out :=
    mk3 (pios_sensor_gyro_data.x gyros * (gyro_scale g)[[I0]])
        (pios_sensor_gyro_data.y gyros * (gyro_scale g)[[I1]])
        (pios_sensor_gyro_data.z gyros * (gyro_scale g)[[I2]]) in
  let v := board_rotate g gyros_out in
  let v :=
    if bias_correct_gyro g then
      let gyrosBias := GyrosBias (objects w) in
      mk3 (v[[I0]] - GyrosBiasData.x gyrosBias)
          (v[[I1]] - GyrosBiasData.y gyrosBias)
          (v[[I2]] - GyrosBiasData.z gyrosBias)
    else v in
  let gyrosData :=
    GyrosData.mk v[[I0]] v[[I1]] v[[I2]] (pios_sensor_gyro_data.temp gyros) in
  do_GyrosSet gyrosData w.

(** The quantities [magOffsetEstimation] computes from the measurement
    [mag] it has already removed the bias estimate from. *)

Definition mag_Rxy (w : World) : float :=
  let Be := HomeLocationData.Be (HomeLocation (objects w)) in
  F32.sqrtf (Be[[I0]] * Be[[I0]] + Be[[I1]] * Be[[I1]]).

Definition mag_Rz (w : World) : float :=
  (HomeLocationData.Be (HomeLocation (objects w)))[[I2]].

(** The mag in the NED frame. *)
Definition mag_B_e (w : World) (mag : MagnetometerData.t) : arr3 float :=
  let attitude := AttitudeActual (objects w) in
  let R := Quaternion2R L (AttitudeActualData.q1 attitude, AttitudeActualData.q2 attitude,
                           AttitudeActualData.q3 attitude, AttitudeActualData.q4 attitude) in
  let mx := MagnetometerData.x mag in
  let my := MagnetometerData.y mag in
  let mz := MagnetometerData.z mag in
  mk3 (R[[I0,I0]] * mx + R[[I1,I0]] * my + R[[I2,I0]] * mz)
      (R[[I0,I1]] * mx + R[[I1,I1]] * my + R[[I2,I1]] * mz)
      (R[[I0,I2]] * mx + R[[I1,I2]] * my + R[[I2,I2]] * mz).

(** [attitude.Yaw * M_PI / 180.0f], computed in [double] since [M_PI] is
    one, and converted for [cosf] and [sinf]. *)
Definition yaw_rad (w : World) : float :=
  let attitude := AttitudeActual (objects w) in
  F32.of_double
    (F64.div (F64.mul (F64.of_float (AttitudeActualData.Yaw attitude)) M_PI)
             (F64.of_float f180)).

Definition mag_xy (w : World) (mag : MagnetometerData.t) : float * float :=
  let B_e := mag_B_e w mag in
  let cy := cosf L (yaw_rad w) in
  let sy := sinf L (yaw_rad w) in
  (cy * B_e[[I0]] + sy * B_e[[I1]], (- sy) * B_e[[I0]] + cy * B_e[[I1]]).

Definition mag_xy_norm (w : World) (mag : MagnetometerData.t) : float :=
  let xy := mag_xy w mag in
  F32.sqrtf (fst xy * fst xy + snd xy * snd xy).

Definition mag_delta (w : World) (mag : MagnetometerData.t) : arr3 float :=
  let Rxy := mag_Rxy w in
  let Rz := mag_Rz w in
  let rate := INSSettingsData.MagBiasNullingRate (insSettings (statics w)) in
  let B_e := mag_B_e w mag in
  let xy := mag_xy w mag in
  let xy_norm := mag_xy_norm w mag in
  mk3 ((- rate) * (fst xy / xy_norm * Rxy - fst xy))
      ((- rate) * (snd xy / xy_norm * Rxy - snd xy))
      ((- rate) * (Rz - B_e[[I2]])).

(** "Remove the current estimate of the bias": the three [-=] on [*mag]. *)
Definition remove_bias (mag : MagnetometerData.t) (magBias : MagBiasData.t)
  : MagnetometerData.t :=
  MagnetometerData.mk (MagnetometerData.x mag - MagBiasData.x magBias)
                      (MagnetometerData.y mag - MagBiasData.y magBias)
                      (MagnetometerData.z mag - MagBiasData.z magBias).

(** The three [+=] on [magBias]. *)
Definition add_delta (magBias : MagBiasData.t) (delta : arr3 float) : MagBiasData.t :=
  MagBiasData.mk (MagBiasData.x magBias + delta[[I0]])
                 (MagBiasData.y magBias + delta[[I1]])
                 (MagBiasData.z magBias + delta[[I2]]).

(** [magOffsetEstimation] (the branch that is compiled): returns the
    measurement as it leaves it in [*mag]. *)
Definition magOffsetEstimation (mag : MagnetometerData.t) (w : World)
  : MagnetometerData.t * World :=
  let magBias := MagBias (objects w) in
  let mag := remove_bias mag magBias in
  let delta := mag_delta w mag in
  if F32.eqb delta[[I0]] delta[[I0]] && F32.eqb delta[[I1]] delta[[I1]]
     && F32.eqb delta[[I2]] delta[[I2]]
  then (mag, do_MagBiasSet (add_delta magBias delta) w)
  else (mag, w).

(** [update_mags]: calibration and rotation of the raw mag data, and the
    bias estimation when its rate is positive. *)
Definition update_mags (mag : pios_sensor_mag_data.t) (w : World) : World :=
  let g := statics w in
  let mags :=
    mk3 (pios_sensor_mag_data.x mag * (mag_scale g)[[I0]] - (mag_bias g)[[I0]])
        (pios_sensor_mag_data.y mag * (mag_scale g)[[I1]] - (mag_bias g)[[I1]])
        (pios_sensor_mag_data.z mag * (mag_scale g)[[I2]] - (mag_bias g)[[I2]]) in
  let v := board_rotate g mags in
  let magData := MagnetometerData.mk v[[I0]] v[[I1]] v[[I2]] in
  let '(magData, w) :=
    if F32.ltb (F32.of_int 0) (INSSettingsData.MagBiasNullingRate (insSettings g))
    then magOffsetEstimation magData w
    else (magData, w) in
  do_MagnetometerSet magData w.

(** [settingsUpdatedCb]: the local copies of the settings. *)
Definition settingsUpdatedCb (w : World) : World :=
  let g := statics w in
  let revoCal := RevoCalibration (objects w) in
  let inertialSensorSettings := InertialSensorSettings (objects w) in
  let insSettings := INSSettings (objects w) in
  let mag_bias :=
    mk3 (RevoCalibrationData.MagBias revoCal)[[REVOCALIBRATION_MAGBIAS_X]]
        (RevoCalibrationData.MagBias revoCal)[[REVOCALIBRATION_MAGBIAS_Y]]
        (RevoCalibrationData.MagBias revoCal)[[REVOCALIBRATION_MAGBIAS_Z]] in
  let mag_scale :=
    mk3 (RevoCalibrationData.MagScale revoCal)[[REVOCALIBRATION_MAGSCALE_X]]
        (RevoCalibrationData.MagScale revoCal)[[REVOCALIBRATION_MAGSCALE_Y]]
        (RevoCalibrationData.MagScale revoCal)[[REVOCALIBRATION_MAGSCALE_Z]] in
  let accel_bias :=
    mk3 (InertialSensorSettingsData.AccelBias inertialSensorSettings)[[INERTIALSENSORSETTINGS_ACCELBIAS_X]]
        (InertialSensorSettingsData.AccelBias inertialSensorSettings)[[INERTIALSENSORSETTINGS_ACCELBIAS_Y]]
        (InertialSensorSettingsData.AccelBias inertialSensorSettings)[[INERTIALSENSORSETTINGS_ACCELBIAS_Z]] in
  let accel_scale :=
    mk3 (InertialSensorSettingsData.AccelScale inertialSensorSettings)[[INERTIALSENSORSETTINGS_ACCELSCALE_X]]
        (InertialSensorSettingsData.AccelScale inertialSensorSettings)[[INERTIALSENSORSETTINGS_ACCELSCALE_X]]
        (InertialSensorSettingsData.AccelScale inertialSensorSettings)[[INERTIALSENSORSETTINGS_ACCELSCALE_X]] in
  let gyro_scale :=
    mk3 (InertialSensorSettingsData.GyroScale inertialSensorSettings)[[INERTIALSENSORSETTINGS_GYROSCALE_X]]
        (InertialSensorSettingsData.GyroScale inertialSensorSettings)[[INERTIALSENSORSETTINGS_GYROSCALE_X]]
        (InertialSensorSettingsData.GyroScale inertialSensorSettings)[[INERTIALSENSORSETTINGS_GYROSCALE_X]] in
  (* Zero out any adaptive tracking *)
  let magBias := MagBiasData.mk (F32.of_int 0) (F32.of_int 0) (F32.of_int 0) in
  let w := do_MagBiasSet magBias w in
  let bias_correct := AttitudeSettingsData.BiasCorrectGyro (AttitudeSettings (objects w)) in
  let bias_correct_gyro := (bias_correct =? ATTITUDESETTINGS_BIASCORRECTGYRO_TRUE)%Z in
  let attitudeSettings := AttitudeSettings (objects w) in
  let BoardRotation := AttitudeSettingsData.BoardRotation attitudeSettings in
  let '(Rbs, rotate) :=
    if (BoardRotation[[I0]] =? 0)%Z && (BoardRotation[[I1]] =? 0)%Z
       && (BoardRotation[[I2]] =? 0)%Z
    then (Rbs g, 0%Z)
    else
      let rpy :=
        mk3 (F32.of_int BoardRotation[[ATTITUDESETTINGS_BOARDROTATION_ROLL]] / f100)
            (F32.of_int BoardRotation[[ATTITUDESETTINGS_BOARDROTATION_PITCH]] / f100)
            (F32.of_int BoardRotation[[ATTITUDESETTINGS_BOARDROTATION_YAW]] / f100) in
      let rotationQuat := RPY2Quaternion L rpy in
      (Quaternion2R L rotationQuat, 1%Z) in
  set_statics
    (mkStatics revoCal insSettings bias_correct_gyro mag_bias mag_scale
               accel_bias accel_scale gyro_scale Rbs rotate) w.

(** A receive from the queue of a sensor kind.  It fails when the handle is
    NULL or when no sample arrives within the timeout; otherwise it takes the
    oldest sample off the queue. *)
Definition receive {A} (queue : option (list A)) : option (A * option (list A)) :=
  match queue with
  | None => None
  | Some [] => None
  | Some (sample :: rest) => Some (sample, Some rest)
  end.

Definition set_gyro_queue (q : option (list pios_sensor_gyro_data.t)) (w : World) : World :=
  set_queues (mkQueues q (accel_queue (queues w)) (mag_queue (queues w))) w.

Definition set_accel_queue (q : option (list pios_sensor_accel_data.t)) (w : World) : World :=
  set_queues (mkQueues (gyro_queue (queues w)) q (mag_queue (queues w))) w.

Definition set_mag_queue (q : option (list pios_sensor_mag_data.t)) (w : World) : World :=
  set_queues (mkQueues (gyro_queue (queues w)) (accel_queue (queues w)) q) w.

(** One iteration of the loop of [SensorsTask], in two parts: the handling
    of the [error] flag left by the previous iteration, and the rest.  The
    flag is a local variable of the task, so it is threaded apart from the
    state that other tasks can change. *)
Definition cycle_head (error : bool) (w : World) : bool * World :=
  if error then
    let w := emit PIOS_WDG_UpdateFlag w in
    let w := emit vTaskDelayUntil w in
    let w := emit (AlarmsSet SYSTEMALARMS_ALARM_CRITICAL) w in
    (false, w)
  else
    (error, emit AlarmsClear w).

Definition cycle_body (error : bool) (w : World) : bool * World :=
  match receive (gyro_queue (queues w)) with
  | None => (true, w)                                  (* continue *)
  | Some (gyros, q) =>
    let w := set_gyro_queue q w in
    match receive (accel_queue (queues w)) with
    | None => (true, w)                                (* continue *)
    | Some (accels, q) =>
      let w := set_accel_queue q w in
      let w := update_accels accels w in
      let w := update_gyros gyros w in
      let w :=
        match receive (mag_queue (queues w)) with
        | Some (mags, q) => update_mags mags (set_mag_queue q w)
        | None => w
        end in
      (error, emit PIOS_WDG_UpdateFlag w)
    end
  end.

Definition SensorsTask_cycle (error : bool) (w : World) : bool * World :=
  let '(error, w) := cycle_head error w in
  cycle_body error w.

(** [SensorsTask] up to its loop: the [error] flag and the state the first
    iteration starts from. *)
Definition SensorsTask_start (w : World) : bool * World :=
  (false, settingsUpdatedCb (emit AlarmsClear w)).

(** [n] iterations of the loop; [env k] is what the drivers and the other
    tasks do to the state before iteration [k] (counted down). *)
Fixpoint SensorsTask_loop (env : nat -> World -> World) (n : nat)
  (error : bool) (w : World) : bool * World :=
  match n with
  | O => (error, w)
  | S k => let '(error, w) := SensorsTask_cycle error (env k w) in
           SensorsTask_loop env k error w
  end.

(** [n] invocations of the estimator on the same measurement. *)
Fixpoint estimator_run (n : nat) (mag : MagnetometerData.t) (w : World) : World :=
  match n with
  | O => w
  | S k => estimator_run k mag (snd (magOffsetEstimation mag w))
  end.

End Sensors.

(** ** Test bench

    Values of the library functions at the level attitude facing north, the
    attitude of the examples: the quaternion (1,0,0,0) gives the identity
    matrix, and a yaw of 0 has cosine 1 and sine 0.  Arguments outside this
    table give NaN. *)

Definition nan3 : arr3 float := mk3 S754_nan S754_nan S754_nan.
Definition zero3 : arr3 float := mk3 f0 f0 f0.
Definition one3 : arr3 float := mk3 f1 f1 f1.
Definition identity3 : mat3 := mk3 (mk3 f1 f0 f0) (mk3 f0 f1 f0) (mk3 f0 f0 f1).

Definition level_library : Library :=
  mkLibrary
    (fun a => if is_zero a then f1 else S754_nan)
    (fun a => if is_zero a then a else S754_nan)
    (fun q =>
       match q with
       | (S754_finite false 8388608 (-23), S754_zero false, S754_zero false,
          S754_zero false) => identity3
       | _ => mk3 nan3 nan3 nan3
       end)
    (fun _ => (S754_nan, S754_nan, S754_nan, S754_nan)).

Definition level_attitude : AttitudeActualData.t :=
  AttitudeActualData.mk f1 f0 f0 f0 f0 f0 f0.

(** A state with unit scales, no static bias, no board rotation, the
    nulling rate [rate], the home field [Be] and the bias estimate [bias]. *)
Definition bench (rate : float) (Be : arr3 float) (bias : MagBiasData.t) : World :=
  mkWorld
    (mkStatics (RevoCalibrationData.mk zero3 one3) (INSSettingsData.mk rate)
               false zero3 one3 zero3 one3 one3 (mk3 zero3 zero3 zero3) 0)
    (mkUAVObjects (AccelsData.mk f0 f0 f0 f0) (GyrosData.mk f0 f0 f0 f0)
                  (MagnetometerData.mk f0 f0 f0) bias (GyrosBiasData.mk f0 f0 f0)
                  (HomeLocationData.mk Be) level_attitude
                  (AttitudeSettingsData.mk (mk3 0 0 0)%Z 0)
                  (InertialSensorSettingsData.mk zero3 one3 one3)
                  (INSSettingsData.mk rate)
                  (RevoCalibrationData.mk zero3 one3))
    (mkQueues None None None)
    [].

Definition f_half : float := Eval cbv in (f1 / f2).
Definition f1_5 : float := Eval cbv in (f3 / f2).
Definition f15 : float := Eval cbv in F32.of_int 15.
Definition f20 : float := Eval cbv in F32.of_int 20.
Definition f25 : float := Eval cbv in F32.of_int 25.
Definition f6 : float := Eval cbv in F32.of_int 6.
Definition f22 : float := Eval cbv in F32.of_int 22.
Definition f_quarter : float := Eval cbv in (f_half / f2).

(** The state of the accel example: scale (2,1,1) and bias (0.5,0,0). *)
Definition accel_bench : World :=
  let w := bench f0 zero3 (MagBiasData.mk f0 f0 f0) in
  set_statics
    (mkStatics (revoCal (statics w)) (insSettings (statics w)) false zero3 one3
               (mk3 f_half f0 f0) (mk3 f2 f1 f1) one3 (Rbs (statics w)) 0)
    w.

(** A state with gyro scale (2,1,1), gyro bias (0.5,0,0) in the store and
    the bias-correction mode as given. *)
Definition gyro_bench (bias_correct : bool) : World :=
  let w := bench f0 zero3 (MagBiasData.mk f0 f0 f0) in
  let o := objects w in
  mkWorld
    (mkStatics (revoCal (statics w)) (insSettings (statics w)) bias_correct zero3
               one3 zero3 one3 (mk3 f2 f1 f1) (Rbs (statics w)) 0)
    (mkUAVObjects (Accels o) (Gyros o) (Magnetometer o) (MagBias o)
                  (GyrosBiasData.mk f_half f0 f0) (HomeLocation o)
                  (AttitudeActual o) (AttitudeSettings o)
                  (InertialSensorSettings o) (INSSettings o) (RevoCalibration o))
    (queues w) (trace w).

(** A state whose settings hold the scales (1,2,3) for both the accels and
    the gyros. *)
Definition scale_bench : World :=
  let w := bench f0 zero3 (MagBiasData.mk f0 f0 f0) in
  let o := objects w in
  set_objects
    (mkUAVObjects (Accels o) (Gyros o) (Magnetometer o) (MagBias o)
                  (GyrosBias o) (HomeLocation o) (AttitudeActual o)
                  (AttitudeSettings o)
                  (InertialSensorSettingsData.mk zero3 (mk3 f1 f2 f3) (mk3 f1 f2 f3))
                  (INSSettings o) (RevoCalibration o))
    w.

(** ** Records seen as arrays over the axis *)

Definition accel_raw (a : pios_sensor_accel_data.t) (i : idx3) : float :=
  match i with
  | I0 => pios_sensor_accel_data.x a
  | I1 => pios_sensor_accel_data.y a
  | I2 => pios_sensor_accel_data.z a
  end.

Definition gyro_raw (a : pios_sensor_gyro_data.t) (i : idx3) : float :=
  match i with
  | I0 => pios_sensor_gyro_data.x a
  | I1 => pios_sensor_gyro_data.y a
  | I2 => pios_sensor_gyro_data.z a
  end.

Definition mag_raw (a : pios_sensor_mag_data.t) (i : idx3) : float :=
  match i with
  | I0 => pios_sensor_mag_data.x a
  | I1 => pios_sensor_mag_data.y a
  | I2 => pios_sensor_mag_data.z a
  end.

Definition accels_axis (d : AccelsData.t) (i : idx3) : float :=
  match i with I0 => AccelsData.x d | I1 => AccelsData.y d | I2 => AccelsData.z d end.

Definition gyros_axis (d : GyrosData.t) (i : idx3) : float :=
  match i with I0 => GyrosData.x d | I1 => GyrosData.y d | I2 => GyrosData.z d end.

Definition gyros_bias_axis (d : GyrosBiasData.t) (i : idx3) : float :=
  match i with
  | I0 => GyrosBiasData.x d | I1 => GyrosBiasData.y d | I2 => GyrosBiasData.z d
  end.

Definition any_nan (v : arr3 float) : bool :=
  is_nan v[[I0]] || is_nan v[[I1]] || is_nan v[[I2]].

(** A queue from which a receive gets nothing: no handle, or no sample. *)
Definition unavailable {A} (queue : option (list A)) : Prop :=
  queue = None \/ queue = Some [].

Definition is_publication (e : event) : bool :=
  match e with
  | AccelsSet _ | GyrosSet _ | MagnetometerSet _ | MagBiasSet _ => true
  | _ => false
  end.

(** ** Test states and notions of the statements *)

(** Test states of the estimator.  Nulling rate 1, home field (1,0,0), bias
    estimate (2,0,0): the sample (2,0,1) has no horizontal part left once
    the estimate is removed. *)
Definition nan_bench : World := bench f1 (mk3 f1 f0 f0) (MagBiasData.mk f2 f0 f0).

(** Nulling rate 5, home field (1,0,0), no bias estimate yet. *)
Definition fast_bench : World := bench f5 (mk3 f1 f0 f0) (MagBiasData.mk f0 f0 f0).

(** Nulling rate 1, home field (15,20,0), no bias estimate yet. *)
Definition exact_bench : World := bench f1 (mk3 f15 f20 f0) (MagBiasData.mk f0 f0 f0).

(** Nulling rate 1/2, home field (1,0,0), no bias estimate yet. *)
Definition slow_bench : World := bench f_half (mk3 f1 f0 f0) (MagBiasData.mk f0 f0 f0).

(** Nulling rate 1/2, home field (1,0,0), bias estimate (2,0,0). *)
Definition rest_bench : World := bench f_half (mk3 f1 f0 f0) (MagBiasData.mk f2 f0 f0).

(** The magnitude discrepancy of the measurement [mag] under the bias
    estimate of [w]: horizontal magnitude less [Rxy], in absolute value. *)
Definition horizontal_discrepancy (L : Library) (mag : MagnetometerData.t) (w : World)
  : float :=
  let m := remove_bias mag (MagBias (objects w)) in
  SFabs (mag_xy_norm L w m - mag_Rxy w).

(** The measurement [mag] with the bias estimate of [w] removed has
    horizontal magnitude [Rxy] and vertical part [Rz], and the float
    expression [xy_i / xy_norm * Rxy] gives back [xy_i]. *)
Definition at_rest (L : Library) (mag : MagnetometerData.t) (w : World) : Prop :=
  let m := remove_bias mag (MagBias (objects w)) in
  let xy := mag_xy L w m in
  let xy_norm := mag_xy_norm L w m in
  F32.ltb (F32.of_int 0) (INSSettingsData.MagBiasNullingRate (insSettings (statics w))) = true /\
  xy_norm = mag_Rxy w /\
  (is_finite (fst xy) = true /\ fst xy / xy_norm * xy_norm = fst xy) /\
  (is_finite (snd xy) = true /\ snd xy / xy_norm * xy_norm = snd xy) /\
  (is_finite (mag_Rz w) = true /\ (mag_B_e L w m)[[I2]] = mag_Rz w).

Definition gyro_sample : pios_sensor_gyro_data.t := pios_sensor_gyro_data.mk f1 f2 f3 f25.
Definition gyro_sample' : pios_sensor_gyro_data.t := pios_sensor_gyro_data.mk f3 f2 f1 f25.
Definition accel_sample : pios_sensor_accel_data.t := pios_sensor_accel_data.mk f0 f0 f1 f20.
Definition mag_sample : pios_sensor_mag_data.t := pios_sensor_mag_data.mk f1 f0 f0.

(** The bench with the given queues. *)
Definition queue_bench (q : Queues) : World :=
  set_queues q (bench f0 (mk3 f1 f0 f0) (MagBiasData.mk f0 f0 f0)).

(** What the drivers may do between two iterations in the examples: a gyro
    sample arrives. *)
Definition gyro_arrives (k : nat) (w : World) : World :=
  set_gyro_queue (Some [gyro_sample]) w.

(** ** Notions of the statements on whole cycles *)

(** The objects that the module reads and never writes agree. *)
Definition same_settings (o o' : UAVObjects) : Prop :=
  GyrosBias o' = GyrosBias o /\
  HomeLocation o' = HomeLocation o /\
  AttitudeActual o' = AttitudeActual o /\
  AttitudeSettings o' = AttitudeSettings o /\
  InertialSensorSettings o' = InertialSensorSettings o /\
  INSSettings o' = INSSettings o /\
  RevoCalibration o' = RevoCalibration o.

(** What an iteration emits for the [error] flag it starts with. *)
Definition head_events (error : bool) : list event :=
  if error
  then [PIOS_WDG_UpdateFlag; vTaskDelayUntil; AlarmsSet SYSTEMALARMS_ALARM_CRITICAL]
  else [AlarmsClear].

(** A queue after a receive was tried on it. *)
Definition rest_queue {A} (queue : option (list A)) : option (list A) :=
  match queue with
  | Some (_ :: rest) => Some rest
  | _ => queue
  end.

Definition is_mag_event (e : event) : bool :=
  match e with MagnetometerSet _ | MagBiasSet _ => true | _ => false end.

Definition is_GyrosSet (e : event) : bool :=
  match e with GyrosSet _ => true | _ => false end.

Definition is_AccelsSet (e : event) : bool :=
  match e with AccelsSet _ => true | _ => false end.

Definition is_alarm_event (e : event) : bool :=
  match e with AlarmsSet _ | AlarmsClear => true | _ => false end.

(** No accel or gyro record is published in [l]. *)
Definition no_inertial (l : list event) : bool :=
  forallb (fun e => negb (is_AccelsSet e || is_GyrosSet e)) l.

(** Nothing happens between two iterations. *)
Definition idle (k : nat) (w : World) : World := w.

(** A binary32 number in its canonical form, or a zero, an infinity, NaN. *)
Definition valid32 (x : float) : bool := valid_binary F32.prec F32.emax x.

(** A state in which the three queues hold samples. *)
Definition full_bench : World :=
  queue_bench (mkQueues (Some [gyro_sample; gyro_sample'])
                        (Some [accel_sample; accel_sample])
                        (Some [mag_sample])).

(** The measurement with a NaN on the X axis. *)
Definition nan_mag : MagnetometerData.t := MagnetometerData.mk S754_nan f1 f0.

(** ** The value of a number, and updates that do not round *)

(** The rational that a finite binary32 number stands for; 0 for the
    infinities and NaN. *)
Definition val (x : float) : Q :=
  match x with
  | S754_finite s m e =>
      let n := if s then Zneg m else Zpos m in
      match e with
      | Zneg p => Qmake n (2 ^ p)
      | _ => inject_Z (n * 2 ^ e)
      end
  | _ => 0%Q
  end.









(** The attitude of [w] is level for the measurement [mag]: the field in
    the heading frame ([xy] and the vertical part of [B_e]), in which the
    correction is computed, has the values of the measurement in the body
    frame, in which the estimate is kept. *)
Definition level_frame (L : Library) (mag : MagnetometerData.t) (w : World) : Prop :=
  let m := remove_bias mag (MagBias (objects w)) in
  let xy := mag_xy L w m in
  (val (fst xy) == val (MagnetometerData.x m))%Q /\
  (val (snd xy) == val (MagnetometerData.y m))%Q /\
  (val (mag_B_e L w m)[[I2]] == val (MagnetometerData.z m))%Q.












(** ** Facts of binary32 arithmetic *)

Lemma SFcompare_refl (x : float) :
  SFcompare x x = if is_nan x then None else Some Eq.
Proof.
  destruct x as [s | s | | s m e]; simpl; try reflexivity.
  - destruct s; reflexivity.
  - rewrite Z.compare_refl, Pos.compare_cont_refl. destruct s; reflexivity.
Qed.

Lemma eqb_self (x : float) : F32.eqb x x = negb (is_nan x).
Proof.
  unfold F32.eqb, SFeqb. rewrite SFcompare_refl. destruct x; reflexivity.
Qed.

Lemma guard_any_nan (v : arr3 float) :
  F32.eqb v[[I0]] v[[I0]] && F32.eqb v[[I1]] v[[I1]] && F32.eqb v[[I2]] v[[I2]]
  = negb (any_nan v).
Proof.
  unfold any_nan. rewrite !eqb_self.
  destruct (is_nan v[[I0]]), (is_nan v[[I1]]), (is_nan v[[I2]]); reflexivity.
Qed.

Lemma sub_self (x : float) : is_finite x = true -> x - x = S754_zero false.
Proof.
  destruct x as [s | s | | s m e]; simpl; try discriminate; intros _.
  - destruct s; reflexivity.
  - unfold F32.sub, SFsub, shl_align. rewrite Z.min_id.
    repeat rewrite Z.sub_diag. reflexivity.
Qed.

Lemma add_negzero (x : float) : x + S754_zero true = x.
Proof. destruct x as [s | s | | s m e]; try destruct s; reflexivity. Qed.

Lemma negrate_mul_zero (s : bool) (m : positive) (e : Z) :
  (- S754_finite s m e) * S754_zero false = S754_zero (negb s).
Proof. destruct s; reflexivity. Qed.

Lemma ltb_zero_cases (r : float) :
  F32.ltb (F32.of_int 0) r = true ->
  r = S754_infinity false \/ exists m e, r = S754_finite false m e.
Proof.
  destruct r as [s | s | | s m e]; try discriminate.
  - destruct s; [discriminate | now left].
  - destruct s; [discriminate | right; eauto].
Qed.

Lemma leb_zero_not_ltb (r : float) :
  F32.leb r f0 = true -> F32.ltb (F32.of_int 0) r = false.
Proof.
  destruct r as [s | s | | s m e]; try reflexivity; destruct s;
    try reflexivity; discriminate.
Qed.

Lemma unavailable_receive {A} (queue : option (list A)) :
  unavailable queue <-> receive queue = None.
Proof.
  unfold unavailable. destruct queue as [ [ | a q] | ]; simpl; split; intros H;
    auto; try discriminate; destruct H; discriminate.
Qed.

(** ** Calibration of the accels and the gyros *)

(** C1.  The published accelerometer record is, on each axis [i],
    [raw_i * scale_i - bias_i], rotated by [Rbs] when and only when [rotate]
    is set; its temperature is the sample's.  With [rotate] clear an axis of
    the output is a function of that axis's raw value, scale and bias
    only. *)
Theorem update_accels_calibrated (accels : pios_sensor_accel_data.t) (w : World) :
  let g := statics w in
  let out :=
    mk3 (accel_raw accels I0 * (accel_scale g)[[I0]] - (accel_bias g)[[I0]])
        (accel_raw accels I1 * (accel_scale g)[[I1]] - (accel_bias g)[[I1]])
        (accel_raw accels I2 * (accel_scale g)[[I2]] - (accel_bias g)[[I2]]) in
  let d := Accels (objects (update_accels accels w)) in
  trace (update_accels accels w) = trace w ++ [AccelsSet d] /\
  AccelsData.temperature d = pios_sensor_accel_data.temp accels /\
  (forall i, accels_axis d i =
             if truthy (rotate g) then (rot_mult (Rbs g) out false)[[i]] else out[[i]]) /\
  (truthy (rotate g) = false ->
   forall i, accels_axis d i
             = accel_raw accels i * (accel_scale g)[[i]] - (accel_bias g)[[i]]) /\
  (truthy (rotate g) = false ->
   forall accels' w' i,
     truthy (rotate (statics w')) = false ->
     accel_raw accels' i = accel_raw accels i ->
     (accel_scale (statics w'))[[i]] = (accel_scale g)[[i]] ->
     (accel_bias (statics w'))[[i]] = (accel_bias g)[[i]] ->
     accels_axis (Accels (objects (update_accels accels' w'))) i = accels_axis d i).
Proof.
  intros g out d.
  assert (Hax : forall a v i,
             truthy (rotate (statics v)) = false ->
             accels_axis (Accels (objects (update_accels a v))) i
             = accel_raw a i * (accel_scale (statics v))[[i]]
               - (accel_bias (statics v))[[i]]).
  { intros a v i Hr. unfold update_accels, board_rotate. rewrite Hr.
    destruct i; reflexivity. }
  repeat split.
  - intros i. subst d. unfold update_accels, board_rotate. fold g.
    destruct (truthy (rotate g)); destruct i; reflexivity.
  - intros Hr i. apply Hax, Hr.
  - intros Hr accels' w' i Hr' Hraw Hs Hb. subst d.
    rewrite (Hax accels' w' i Hr'), (Hax accels w i Hr). fold g.
    now rewrite Hraw, Hs, Hb.
Qed.

Lemma update_accels_calibrated_witness :
  truthy (rotate (statics accel_bench)) = false /\
  Accels (objects (update_accels (pios_sensor_accel_data.mk f1 f0 f0 f25) accel_bench))
  = AccelsData.mk f1_5 f0 f0 f25.
Proof.
  split; [reflexivity |].
  generalize (update_accels_calibrated (pios_sensor_accel_data.mk f1 f0 f0 f25) accel_bench).
  cbv zeta.
  generalize (Accels (objects (update_accels (pios_sensor_accel_data.mk f1 f0 f0 f25)
                                             accel_bench))).
  intros d (_ & Ht & _ & Hax & _).
  specialize (Hax eq_refl).
  pose proof (Hax I0) as H0. pose proof (Hax I1) as H1. pose proof (Hax I2) as H2.
  destruct d as [dx dy dz dt]. cbv in Ht, H0, H1, H2. subst. reflexivity.
Defined.

(** C6.  The bias of the state estimator is subtracted from the gyro output
    if and only if [bias_correct_gyro] is set, and it is subtracted from the
    scaled and then rotated value; with the mode off the published gyro is
    that value itself. *)
Theorem update_gyros_bias_correction (gyros : pios_sensor_gyro_data.t) (w : World) :
  let g := statics w in
  let scaled :=
    mk3 (gyro_raw gyros I0 * (gyro_scale g)[[I0]])
        (gyro_raw gyros I1 * (gyro_scale g)[[I1]])
        (gyro_raw gyros I2 * (gyro_scale g)[[I2]]) in
  let rotated := if truthy (rotate g) then rot_mult (Rbs g) scaled false else scaled in
  let gyrosBias := GyrosBias (objects w) in
  let d := Gyros (objects (update_gyros gyros w)) in
  trace (update_gyros gyros w) = trace w ++ [GyrosSet d] /\
  GyrosData.temperature d = pios_sensor_gyro_data.temp gyros /\
  (bias_correct_gyro g = true ->
   forall i, gyros_axis d i = rotated[[i]] - gyros_bias_axis gyrosBias i) /\
  (bias_correct_gyro g = false ->
   forall i, gyros_axis d i = rotated[[i]]).
Proof.
  intros g scaled rotated gyrosBias d. subst d rotated.
  unfold update_gyros, board_rotate. fold g.
  repeat split.
  - intros Hb i. rewrite Hb. destruct (truthy (rotate g)); destruct i; reflexivity.
  - intros Hb i. rewrite Hb. destruct (truthy (rotate g)); destruct i; reflexivity.
Qed.

Lemma update_gyros_bias_correction_witness :
  Gyros (objects (update_gyros (pios_sensor_gyro_data.mk f1 f0 f0 f25) (gyro_bench true)))
  = GyrosData.mk f1_5 f0 f0 f25 /\
  Gyros (objects (update_gyros (pios_sensor_gyro_data.mk f1 f0 f0 f25) (gyro_bench false)))
  = GyrosData.mk f2 f0 f0 f25.
Proof.
  split.
  - generalize (update_gyros_bias_correction (pios_sensor_gyro_data.mk f1 f0 f0 f25)
                  (gyro_bench true)).
    cbv zeta.
    generalize (Gyros (objects (update_gyros (pios_sensor_gyro_data.mk f1 f0 f0 f25)
                                             (gyro_bench true)))).
    intros d (_ & Ht & Hon & _).
    specialize (Hon eq_refl).
    pose proof (Hon I0) as H0. pose proof (Hon I1) as H1. pose proof (Hon I2) as H2.
    destruct d as [dx dy dz dt]. cbv in Ht, H0, H1, H2. subst. reflexivity.
  - generalize (update_gyros_bias_correction (pios_sensor_gyro_data.mk f1 f0 f0 f25)
                  (gyro_bench false)).
    cbv zeta.
    generalize (Gyros (objects (update_gyros (pios_sensor_gyro_data.mk f1 f0 f0 f25)
                                             (gyro_bench false)))).
    intros d (_ & Ht & _ & Hoff).
    specialize (Hoff eq_refl).
    pose proof (Hoff I0) as H0. pose proof (Hoff I1) as H1. pose proof (Hoff I2) as H2.
    destruct d as [dx dy dz dt]. cbv in Ht, H0, H1, H2. subst. reflexivity.
Defined.

(** ** Reload of the settings *)

(** The task enters its loop with the flag clear, the alarm cleared and the
    settings loaded. *)
Lemma SensorsTask_start_spec (L : Library) (w : World) :
  fst (SensorsTask_start L w) = false /\
  statics (snd (SensorsTask_start L w)) = statics (settingsUpdatedCb L w) /\
  exists zero,
    trace (snd (SensorsTask_start L w)) = trace w ++ [AlarmsClear; MagBiasSet zero].
Proof.
  unfold SensorsTask_start, settingsUpdatedCb. cbv zeta.
  destruct (_ && _); (split; [reflexivity | split; [reflexivity | ] ]);
    eexists; simpl; rewrite <- app_assoc; reflexivity.
Qed.

(** What [settingsUpdatedCb] stores for the scales: on every axis the X
    element of the configured scale. *)
Lemma settingsUpdatedCb_scales (L : Library) (w : World) (i : idx3) :
  let s := InertialSensorSettings (objects w) in
  let g := statics (settingsUpdatedCb L w) in
  (accel_scale g)[[i]] = (InertialSensorSettingsData.AccelScale s)[[I0]] /\
  (gyro_scale g)[[i]] = (InertialSensorSettingsData.GyroScale s)[[I0]].
Proof.
  unfold settingsUpdatedCb. cbv zeta.
  destruct (_ && _); destruct i; split; reflexivity.
Qed.

(** The biases and the mag scale are loaded axis by axis. *)
Lemma settingsUpdatedCb_biases (L : Library) (w : World) (i : idx3) :
  let s := InertialSensorSettings (objects w) in
  let c := RevoCalibration (objects w) in
  let g := statics (settingsUpdatedCb L w) in
  (accel_bias g)[[i]] = (InertialSensorSettingsData.AccelBias s)[[i]] /\
  (mag_bias g)[[i]] = (RevoCalibrationData.MagBias c)[[i]] /\
  (mag_scale g)[[i]] = (RevoCalibrationData.MagScale c)[[i]].
Proof.
  unfold settingsUpdatedCb. cbv zeta.
  destruct (_ && _); destruct i; repeat split; reflexivity.
Qed.

(** C3.  With the configured scales (1,2,3) for the accels and for the
    gyros, the reload stores (1,1,1) for both: the Y and Z axes get the X
    scale, not their own. *)
Theorem settingsUpdatedCb_scale_axes :
  let s := InertialSensorSettings (objects scale_bench) in
  let g := statics (settingsUpdatedCb level_library scale_bench) in
  InertialSensorSettingsData.AccelScale s = mk3 f1 f2 f3 /\
  InertialSensorSettingsData.GyroScale s = mk3 f1 f2 f3 /\
  accel_scale g = mk3 f1 f1 f1 /\
  gyro_scale g = mk3 f1 f1 f1 /\
  (accel_scale g)[[I1]] <> (InertialSensorSettingsData.AccelScale s)[[INERTIALSENSORSETTINGS_ACCELSCALE_Y]] /\
  (gyro_scale g)[[I2]] <> (InertialSensorSettingsData.GyroScale s)[[INERTIALSENSORSETTINGS_GYROSCALE_Z]].
Proof.
  cbv zeta. repeat split; try reflexivity; cbv; discriminate.
Qed.

(** C7.  Every invocation of the settings callback leaves the three
    components of the stored mag bias estimate at zero, whatever they were,
    and publishes that value. *)
Theorem settingsUpdatedCb_resets_MagBias (L : Library) (w : World) :
  let w' := settingsUpdatedCb L w in
  let zero := MagBiasData.mk (S754_zero false) (S754_zero false) (S754_zero false) in
  MagBias (objects w') = zero /\
  trace w' = trace w ++ [MagBiasSet zero].
Proof.
  unfold settingsUpdatedCb. cbv zeta.
  destruct (_ && _); split; reflexivity.
Qed.

(** ** The magnetometer and its bias estimator *)

Lemma magOffsetEstimation_eq (L : Library) (mag : MagnetometerData.t) (w : World) :
  let magBias := MagBias (objects w) in
  let m := remove_bias mag magBias in
  let delta := mag_delta L w m in
  magOffsetEstimation L mag w
  = if any_nan delta then (m, w) else (m, do_MagBiasSet (add_delta magBias delta) w).
Proof.
  cbv zeta. unfold magOffsetEstimation. rewrite guard_any_nan.
  destruct (any_nan _); reflexivity.
Qed.

(** C4.  When the estimator runs (the nulling rate is positive) and a
    component of the correction is NaN, the stored bias estimate is not
    touched and nothing but the measurement is published; otherwise the
    three components of the correction are added to the stored estimate.
    Either way the published measurement is the calibrated one less the
    estimate as it was before the update. *)
Theorem update_mags_nan_guard (L : Library) (mag : pios_sensor_mag_data.t) (w : World) :
  let g := statics w in
  let mags :=
    mk3 (mag_raw mag I0 * (mag_scale g)[[I0]] - (mag_bias g)[[I0]])
        (mag_raw mag I1 * (mag_scale g)[[I1]] - (mag_bias g)[[I1]])
        (mag_raw mag I2 * (mag_scale g)[[I2]] - (mag_bias g)[[I2]]) in
  let v := if truthy (rotate g) then rot_mult (Rbs g) mags false else mags in
  let magBias := MagBias (objects w) in
  let corrected :=
    MagnetometerData.mk (v[[I0]] - MagBiasData.x magBias)
                        (v[[I1]] - MagBiasData.y magBias)
                        (v[[I2]] - MagBiasData.z magBias) in
  let delta := mag_delta L w corrected in
  let w' := update_mags L mag w in
  F32.ltb (F32.of_int 0) (INSSettingsData.MagBiasNullingRate (insSettings g)) = true ->
  Magnetometer (objects w') = corrected /\
  if any_nan delta then
    MagBias (objects w') = magBias /\
    trace w' = trace w ++ [MagnetometerSet corrected]
  else
    MagBias (objects w')
    = MagBiasData.mk (MagBiasData.x magBias + delta[[I0]])
                     (MagBiasData.y magBias + delta[[I1]])
                     (MagBiasData.z magBias + delta[[I2]]) /\
    trace w' = trace w ++ [MagBiasSet (MagBias (objects w')); MagnetometerSet corrected].
Proof.
  intros g mags v magBias corrected delta w' Hrate.
  assert (Hu : w' = let '(magData, w0) :=
                      magOffsetEstimation L (MagnetometerData.mk v[[I0]] v[[I1]] v[[I2]]) w in
                    do_MagnetometerSet magData w0).
  { subst w'. unfold update_mags. fold g. rewrite Hrate. reflexivity. }
  rewrite Hu, magOffsetEstimation_eq.
  change (mag_delta L w (remove_bias (MagnetometerData.mk v[[I0]] v[[I1]] v[[I2]])
                                     (MagBias (objects w))))
    with delta.
  destruct (any_nan delta).
  - repeat split.
  - repeat split. simpl. rewrite <- app_assoc. reflexivity.
Qed.

Lemma update_mags_nan_guard_witness :
  let w' := update_mags level_library (pios_sensor_mag_data.mk f2 f0 f1) nan_bench in
  F32.ltb (F32.of_int 0)
          (INSSettingsData.MagBiasNullingRate (insSettings (statics nan_bench))) = true /\
  Magnetometer (objects w') = MagnetometerData.mk f0 f0 f1 /\
  MagBias (objects w') = MagBiasData.mk f2 f0 f0 /\
  trace w' = [MagnetometerSet (MagnetometerData.mk f0 f0 f1)].
Proof.
  cbv zeta. split; [reflexivity |].
  generalize (update_mags_nan_guard level_library (pios_sensor_mag_data.mk f2 f0 f1)
                                    nan_bench eq_refl).
  generalize (update_mags level_library (pios_sensor_mag_data.mk f2 f0 f1) nan_bench).
  intros w' H. vm_compute in H. exact H.
Defined.

(** C9.  With a nulling rate that is zero or negative, [update_mags] leaves
    the stored bias estimate as it is and publishes the scaled, statically
    bias-corrected and rotated value, whatever the bias estimate holds: the
    estimate is not subtracted. *)
Theorem update_mags_nulling_off (L : Library) (mag : pios_sensor_mag_data.t) (w : World) :
  let g := statics w in
  let mags :=
    mk3 (mag_raw mag I0 * (mag_scale g)[[I0]] - (mag_bias g)[[I0]])
        (mag_raw mag I1 * (mag_scale g)[[I1]] - (mag_bias g)[[I1]])
        (mag_raw mag I2 * (mag_scale g)[[I2]] - (mag_bias g)[[I2]]) in
  let v := if truthy (rotate g) then rot_mult (Rbs g) mags false else mags in
  let d := MagnetometerData.mk v[[I0]] v[[I1]] v[[I2]] in
  F32.leb (INSSettingsData.MagBiasNullingRate (insSettings g)) f0 = true ->
  Magnetometer (objects (update_mags L mag w)) = d /\
  MagBias (objects (update_mags L mag w)) = MagBias (objects w) /\
  trace (update_mags L mag w) = trace w ++ [MagnetometerSet d] /\
  forall magBias,
    let w1 := update_mags L mag (set_objects (store_MagBias magBias (objects w)) w) in
    Magnetometer (objects w1) = d /\ MagBias (objects w1) = magBias /\
    trace w1 = trace w ++ [MagnetometerSet d].
Proof.
  intros g mags v d Hrate. apply leb_zero_not_ltb in Hrate.
  assert (H : forall w0, statics w0 = statics w ->
                         update_mags L mag w0 = do_MagnetometerSet d w0).
  { intros w0 Hs. unfold update_mags. rewrite Hs. fold g. rewrite Hrate.
    reflexivity. }
  repeat split; try (rewrite H by reflexivity; reflexivity).
Qed.

Lemma update_mags_nulling_off_witness :
  let w := bench (- f1) (mk3 f1 f0 f0) (MagBiasData.mk f2 f0 f0) in
  let w' := update_mags level_library (pios_sensor_mag_data.mk f2 f0 f1) w in
  F32.leb (INSSettingsData.MagBiasNullingRate (insSettings (statics w))) f0 = true /\
  Magnetometer (objects w') = MagnetometerData.mk f2 f0 f1 /\
  MagBias (objects w') = MagBiasData.mk f2 f0 f0.
Proof.
  cbv zeta. split; [reflexivity |].
  destruct (update_mags_nulling_off level_library (pios_sensor_mag_data.mk f2 f0 f1)
              (bench (- f1) (mk3 f1 f0 f0) (MagBiasData.mk f2 f0 f0)) eq_refl)
    as (Hm & Hb & _).
  split; [rewrite Hm | rewrite Hb]; reflexivity.
Defined.

Lemma at_rest_same (L : Library) (mag : MagnetometerData.t) (w w' : World) :
  statics w' = statics w -> objects w' = objects w ->
  at_rest L mag w -> at_rest L mag w'.
Proof.
  unfold at_rest, mag_xy_norm, mag_xy, mag_B_e, mag_Rxy, mag_Rz, yaw_rad.
  intros Hs Ho. rewrite Hs, Ho. trivial.
Qed.

Lemma store_MagBias_same (o : UAVObjects) : store_MagBias (MagBias o) o = o.
Proof. destruct o; reflexivity. Qed.

Lemma add_delta_negzero (b : MagBiasData.t) :
  add_delta b (mk3 (S754_zero true) (S754_zero true) (S754_zero true)) = b.
Proof. destruct b; unfold add_delta; simpl. now rewrite !add_negzero. Qed.

(** At rest, the correction is -0 on the three axes for a finite rate and
    NaN for an infinite one. *)
Lemma at_rest_delta (L : Library) (mag : MagnetometerData.t) (w : World) :
  at_rest L mag w ->
  let rate := INSSettingsData.MagBiasNullingRate (insSettings (statics w)) in
  let delta := mag_delta L w (remove_bias mag (MagBias (objects w))) in
  (rate = S754_infinity false /\ any_nan delta = true) \/
  (is_finite rate = true /\
   delta = mk3 (S754_zero true) (S754_zero true) (S754_zero true)).
Proof.
  intros (Hrate & Hn & (Hfx & Hx) & (Hfy & Hy) & (Hfz & Hz)). cbv zeta.
  unfold mag_delta. rewrite <- Hn, Hx, Hy, Hz, !sub_self by assumption.
  destruct (ltb_zero_cases _ Hrate) as [Hr | (m & e & Hr)]; rewrite Hr.
  - left. split; reflexivity.
  - right. split; reflexivity.
Qed.

Lemma at_rest_step (L : Library) (mag : MagnetometerData.t) (w : World) :
  at_rest L mag w ->
  let r := magOffsetEstimation L mag w in
  fst r = remove_bias mag (MagBias (objects w)) /\
  statics (snd r) = statics w /\ objects (snd r) = objects w.
Proof.
  intros H. cbv zeta. rewrite magOffsetEstimation_eq.
  destruct (at_rest_delta H) as [(_ & Hd) | (_ & Hd)]; rewrite Hd.
  - repeat split.
  - simpl. rewrite add_delta_negzero, store_MagBias_same. repeat split.
Qed.

Lemma at_rest_run (L : Library) (mag : MagnetometerData.t) (k : nat) :
  forall w, at_rest L mag w ->
            statics (estimator_run L k mag w) = statics w /\
            objects (estimator_run L k mag w) = objects w.
Proof.
  induction k as [| k IH]; intros w H; simpl; [split; reflexivity |].
  destruct (at_rest_step H) as (_ & Hs & Ho).
  destruct (IH _ (at_rest_same _ Hs Ho H)) as (Hs' & Ho').
  split; congruence.
Qed.

(** A measurement at rest, bit for bit, in binary32 with every operation
    rounded on its own.  Let the estimator run at a positive rate on a
    measurement which, once the stored estimate is removed, has the
    horizontal magnitude [Rxy] and the vertical part [Rz], and whose two
    horizontal components are given back by the float expression
    [xy_i / xy_norm * Rxy].  Then the correction is zero (for an infinite
    rate it is NaN, and discarded) and any number of updates on that
    measurement leaves the stored estimate, and the measurement handed on,
    as they are. *)
Theorem estimator_fixed_point (L : Library) (mag : MagnetometerData.t) (w : World)
  (k : nat) :
  let m := remove_bias mag (MagBias (objects w)) in
  let rate := INSSettingsData.MagBiasNullingRate (insSettings (statics w)) in
  let xy := mag_xy L w m in
  let xy_norm := mag_xy_norm L w m in
  F32.ltb (F32.of_int 0) rate = true ->
  xy_norm = mag_Rxy w ->
  (mag_B_e L w m)[[I2]] = mag_Rz w ->
  is_finite (fst xy) = true -> is_finite (snd xy) = true ->
  is_finite (mag_Rz w) = true ->
  fst xy / xy_norm * mag_Rxy w = fst xy ->
  snd xy / xy_norm * mag_Rxy w = snd xy ->
  (is_finite rate = true ->
   mag_delta L w m = mk3 (S754_zero true) (S754_zero true) (S754_zero true)) /\
  MagBias (objects (estimator_run L k mag w)) = MagBias (objects w) /\
  fst (magOffsetEstimation L mag (estimator_run L k mag w)) = m.
Proof.
  intros m rate xy xy_norm Hrate Hn Hz Hfx Hfy Hfz Hx Hy.
  assert (H : at_rest L mag w).
  { unfold at_rest. fold m xy xy_norm rate. rewrite <- Hn in Hx, Hy. tauto. }
  destruct (at_rest_run k H) as (Hs & Ho).
  split; [| split].
  - intros Hfin. destruct (at_rest_delta H) as [(Hr & _) | (_ & Hd)].
    + fold rate in Hr. rewrite Hr in Hfin. discriminate.
    + exact Hd.
  - now rewrite Ho.
  - destruct (at_rest_step (at_rest_same _ Hs Ho H)) as (Hm & _).
    rewrite Hm, Ho. reflexivity.
Qed.

Lemma estimator_fixed_point_witness :
  let mag := MagnetometerData.mk f3 f0 f0 in
  MagBias (objects (estimator_run level_library 3 mag rest_bench))
  = MagBiasData.mk f2 f0 f0 /\
  fst (magOffsetEstimation level_library mag (estimator_run level_library 3 mag rest_bench))
  = MagnetometerData.mk f1 f0 f0.
Proof.
  cbv zeta.
  destruct (@estimator_fixed_point level_library (MagnetometerData.mk f3 f0 f0)
              rest_bench 3 eq_refl eq_refl eq_refl eq_refl eq_refl eq_refl
              eq_refl eq_refl) as (_ & Hb & Hm).
  rewrite Hb, Hm. split; reflexivity.
Defined.

(** The estimator at the nulling rate 1/2, with the home field (1,0,0) and
    the level attitude facing north, on the measurement (3,0,0): the
    discrepancy is halved by each update. *)
Lemma estimator_halves_at_rate_half :
  let mag := MagnetometerData.mk f3 f0 f0 in
  let d k := horizontal_discrepancy level_library mag
                                    (estimator_run level_library k mag slow_bench) in
  d 0%nat = f2 /\ d 1%nat = f1 /\ d 2%nat = f_half /\ d 3%nat = f_quarter.
Proof. vm_compute. repeat split. Qed.

(** Rounding alone moves the estimate: at rate 1 the measurement (15,20,0)
    under the home field (15,20,0) has exactly the horizontal magnitude
    [Rxy] = 25 and the vertical part [Rz] = 0, but [15 / 25 * 25] is not 15
    in binary32, and the first update changes the stored estimate. *)
Lemma estimator_exact_match_moves :
  let mag := MagnetometerData.mk f15 f20 f0 in
  let m := remove_bias mag (MagBias (objects exact_bench)) in
  mag_xy_norm level_library exact_bench m = mag_Rxy exact_bench /\
  (mag_B_e level_library exact_bench m)[[I2]] = mag_Rz exact_bench /\
  f15 / f25 * f25 <> f15 /\
  MagBias (objects (estimator_run level_library 1 mag exact_bench))
  <> MagBias (objects exact_bench).
Proof. vm_compute. repeat split; discriminate. Qed.

(** ** The acquisition cycle *)

Lemma cycle_head_spec (error : bool) (w : World) :
  fst (cycle_head error w) = false /\
  statics (snd (cycle_head error w)) = statics w /\
  objects (snd (cycle_head error w)) = objects w /\
  queues (snd (cycle_head error w)) = queues w /\
  trace (snd (cycle_head error w))
  = trace w ++ (if error
                then [PIOS_WDG_UpdateFlag; vTaskDelayUntil;
                      AlarmsSet SYSTEMALARMS_ALARM_CRITICAL]
                else [AlarmsClear]).
Proof.
  destruct error; simpl; repeat split. now rewrite <- !app_assoc.
Qed.

Lemma update_mags_trace (L : Library) (mag : pios_sensor_mag_data.t) (w : World) :
  exists evs, trace (update_mags L mag w) = trace w ++ evs.
Proof.
  unfold update_mags. destruct (F32.ltb _ _).
  - rewrite magOffsetEstimation_eq. destruct (any_nan _); simpl.
    + eexists; reflexivity.
    + rewrite <- app_assoc. eexists; reflexivity.
  - simpl. eexists; reflexivity.
Qed.

Lemma cycle_body_trace (L : Library) (error : bool) (w : World) :
  exists evs, trace (snd (cycle_body L error w)) = trace w ++ evs.
Proof.
  unfold cycle_body.
  destruct (receive (gyro_queue (queues w))) as [ [gyros gq] | ];
    [| exists []; simpl; now rewrite app_nil_r].
  destruct (receive (accel_queue _)) as [ [accels aq] | ];
    [| exists []; simpl; now rewrite app_nil_r].
  destruct (receive (mag_queue _)) as [ [mags mq] | ]; cbn [snd].
  - match goal with |- context [update_mags L mags ?v] =>
      destruct (update_mags_trace L mags v) as (evs & He) end.
    unfold emit at 1. cbn [trace]. rewrite He. simpl.
    rewrite <- !app_assoc. eexists; reflexivity.
  - simpl. rewrite <- !app_assoc. eexists; reflexivity.
Qed.

Lemma filter_publication_head (error : bool) (l : list event) :
  filter is_publication
         (l ++ (if error
                then [PIOS_WDG_UpdateFlag; vTaskDelayUntil;
                      AlarmsSet SYSTEMALARMS_ALARM_CRITICAL]
                else [AlarmsClear]))
  = filter is_publication l.
Proof.
  rewrite filter_app. destruct error; simpl; now rewrite app_nil_r.
Qed.

(** C5.  In a cycle that finds the gyro queue missing or empty the fault
    flag is set and nothing else happens after the handling of the previous
    fault: no sample is taken, no object is written or published.  The
    following cycle, whatever happened in between, starts by signalling the
    watchdog, waiting for the period, raising the critical alarm and
    clearing the flag, and only then goes on. *)
Theorem gyro_unavailable_cycle (L : Library) (error : bool) (w : World) :
  unavailable (gyro_queue (queues w)) ->
  let r := SensorsTask_cycle L error w in
  fst r = true /\
  statics (snd r) = statics w /\ objects (snd r) = objects w /\
  queues (snd r) = queues w /\
  trace (snd r)
  = trace w ++ (if error
                then [PIOS_WDG_UpdateFlag; vTaskDelayUntil;
                      AlarmsSet SYSTEMALARMS_ALARM_CRITICAL]
                else [AlarmsClear]) /\
  filter is_publication (trace (snd r)) = filter is_publication (trace w) /\
  forall env : nat -> World -> World,
    let w2 := env 0%nat (snd r) in
    let h := cycle_head (fst r) w2 in
    fst h = false /\
    trace (snd h) = trace w2 ++ [PIOS_WDG_UpdateFlag; vTaskDelayUntil;
                                 AlarmsSet SYSTEMALARMS_ALARM_CRITICAL] /\
    SensorsTask_loop L env 1 (fst r) (snd r) = cycle_body L false (snd h) /\
    exists rest,
      trace (snd (SensorsTask_loop L env 1 (fst r) (snd r)))
      = trace w2 ++ [PIOS_WDG_UpdateFlag; vTaskDelayUntil;
                     AlarmsSet SYSTEMALARMS_ALARM_CRITICAL] ++ rest.
Proof.
  intros Hq r. apply unavailable_receive in Hq.
  destruct (cycle_head_spec error w) as (He & Hs & Ho & Hqs & Ht).
  assert (Hr : r = (true, snd (cycle_head error w))).
  { subst r. unfold SensorsTask_cycle.
    destruct (cycle_head error w) as [e v] eqn:Hh. simpl in *.
    unfold cycle_body. rewrite Hqs, Hq. reflexivity. }
  rewrite Hr. cbn [fst snd].
  split; [reflexivity |]. split; [exact Hs |]. split; [exact Ho |].
  split; [exact Hqs |]. split; [exact Ht |].
  split; [rewrite Ht; apply filter_publication_head |].
  intros env. cbv zeta.
  set (w2 := env 0%nat (snd (cycle_head error w))).
  destruct (cycle_head_spec true w2) as (He2 & _ & _ & _ & Ht2).
  assert (Hloop : SensorsTask_loop L env 1 true (snd (cycle_head error w))
                  = cycle_body L false (snd (cycle_head true w2))).
  { simpl. fold w2. unfold SensorsTask_cycle. simpl.
    destruct (cycle_body L false _); reflexivity. }
  split; [exact He2 |]. split; [exact Ht2 |]. split; [exact Hloop |].
  rewrite Hloop.
  destruct (cycle_body_trace L false (snd (cycle_head true w2))) as (rest & Hrest).
  exists rest. rewrite Hrest, Ht2. now rewrite <- app_assoc.
Qed.

Lemma gyro_unavailable_cycle_witness :
  let w := queue_bench (mkQueues (Some []) (Some [accel_sample]) (Some [mag_sample])) in
  let r := SensorsTask_cycle level_library false w in
  unavailable (gyro_queue (queues w)) /\
  fst r = true /\
  trace (snd r) = [AlarmsClear] /\
  queues (snd r) = queues w /\
  exists a g m,
    trace (snd (SensorsTask_loop level_library gyro_arrives 1 (fst r) (snd r)))
    = [AlarmsClear; PIOS_WDG_UpdateFlag; vTaskDelayUntil;
       AlarmsSet SYSTEMALARMS_ALARM_CRITICAL;
       AccelsSet a; GyrosSet g; MagnetometerSet m; PIOS_WDG_UpdateFlag].
Proof.
  cbv zeta.
  destruct (@gyro_unavailable_cycle level_library false
              (queue_bench (mkQueues (Some []) (Some [accel_sample]) (Some [mag_sample])))
              (or_intror eq_refl))
    as (He & _ & _ & Hq & Ht & _ & _).
  split; [right; reflexivity |]. split; [exact He |].
  split; [exact Ht |]. split; [exact Hq |].
  do 3 eexists. vm_compute. reflexivity.
Defined.

(** C8.  In a cycle that receives a gyro and an accel sample and finds the
    mag queue missing or empty, the accel record and then the gyro record
    are published as [update_accels] and [update_gyros] compute them, no
    mag record is written or published, the fault flag is clear and the
    cycle ends by signalling the watchdog. *)
Theorem mag_unavailable_cycle (L : Library) (error : bool) (w : World)
  (gyros : pios_sensor_gyro_data.t) (gq : list pios_sensor_gyro_data.t)
  (accels : pios_sensor_accel_data.t) (aq : list pios_sensor_accel_data.t) :
  gyro_queue (queues w) = Some (gyros :: gq) ->
  accel_queue (queues w) = Some (accels :: aq) ->
  unavailable (mag_queue (queues w)) ->
  let r := SensorsTask_cycle L error w in
  let a := Accels (objects (update_accels accels w)) in
  let g := Gyros (objects (update_gyros gyros w)) in
  fst r = false /\
  Accels (objects (snd r)) = a /\
  Gyros (objects (snd r)) = g /\
  Magnetometer (objects (snd r)) = Magnetometer (objects w) /\
  MagBias (objects (snd r)) = MagBias (objects w) /\
  queues (snd r) = mkQueues (Some gq) (Some aq) (mag_queue (queues w)) /\
  trace (snd r)
  = trace w ++ (if error
                then [PIOS_WDG_UpdateFlag; vTaskDelayUntil;
                      AlarmsSet SYSTEMALARMS_ALARM_CRITICAL]
                else [AlarmsClear])
            ++ [AccelsSet a; GyrosSet g; PIOS_WDG_UpdateFlag].
Proof.
  intros Hg Ha Hm r a g. subst r a g.
  destruct w as [st o [gqv aqv mqv] t]. simpl in Hg, Ha, Hm. subst gqv aqv.
  destruct Hm as [Hm | Hm]; subst mqv; destruct error; cbn;
    rewrite <- ?app_assoc; repeat split.
Qed.

Lemma mag_unavailable_cycle_witness :
  let w := queue_bench (mkQueues (Some [gyro_sample; gyro_sample']) (Some [accel_sample])
                                 (Some [])) in
  let r := SensorsTask_cycle level_library false w in
  fst r = false /\
  Accels (objects (snd r)) = AccelsData.mk f0 f0 f1 f20 /\
  Gyros (objects (snd r)) = GyrosData.mk f1 f2 f3 f25 /\
  trace (snd r) = [AlarmsClear; AccelsSet (AccelsData.mk f0 f0 f1 f20);
                   GyrosSet (GyrosData.mk f1 f2 f3 f25); PIOS_WDG_UpdateFlag].
Proof.
  cbv zeta.
  destruct (@mag_unavailable_cycle level_library false
              (queue_bench (mkQueues (Some [gyro_sample; gyro_sample']) (Some [accel_sample])
                                     (Some [])))
              gyro_sample [gyro_sample'] accel_sample [] eq_refl eq_refl
              (or_intror eq_refl))
    as (He & Ha & Hg & _ & _ & _ & Ht).
  rewrite He, Ha, Hg, Ht. repeat split.
Defined.

(** C10.  In a cycle that receives a gyro sample and then finds the accel
    queue missing or empty, the gyro sample is off its queue and is not
    published: the cycle sets the fault flag and writes no object. *)
Theorem accel_unavailable_cycle (L : Library) (error : bool) (w : World)
  (gyros : pios_sensor_gyro_data.t) (gq : list pios_sensor_gyro_data.t) :
  gyro_queue (queues w) = Some (gyros :: gq) ->
  unavailable (accel_queue (queues w)) ->
  let r := SensorsTask_cycle L error w in
  fst r = true /\
  gyro_queue (queues (snd r)) = Some gq /\
  accel_queue (queues (snd r)) = accel_queue (queues w) /\
  mag_queue (queues (snd r)) = mag_queue (queues w) /\
  objects (snd r) = objects w /\
  trace (snd r)
  = trace w ++ (if error
                then [PIOS_WDG_UpdateFlag; vTaskDelayUntil;
                      AlarmsSet SYSTEMALARMS_ALARM_CRITICAL]
                else [AlarmsClear]) /\
  filter is_publication (trace (snd r)) = filter is_publication (trace w).
Proof.
  intros Hg Ha r. subst r.
  destruct w as [st o [gqv aqv mqv] t]. simpl in Hg, Ha. subst gqv.
  destruct Ha as [Ha | Ha]; subst aqv; destruct error; cbn;
    repeat split; rewrite <- ?app_assoc; try reflexivity;
    rewrite filter_app; simpl; apply app_nil_r.
Qed.

Lemma accel_unavailable_cycle_witness :
  let w := queue_bench (mkQueues (Some [gyro_sample; gyro_sample']) None
                                 (Some [mag_sample])) in
  let r := SensorsTask_cycle level_library false w in
  fst r = true /\
  gyro_queue (queues (snd r)) = Some [gyro_sample'] /\
  Gyros (objects (snd r)) = Gyros (objects w) /\
  trace (snd r) = [AlarmsClear].
Proof.
  cbv zeta.
  destruct (@accel_unavailable_cycle level_library false
              (queue_bench (mkQueues (Some [gyro_sample; gyro_sample']) None
                                     (Some [mag_sample])))
              gyro_sample [gyro_sample'] eq_refl (or_introl eq_refl))
    as (He & Hq & _ & _ & Ho & Ht & _).
  rewrite He, Hq, Ho, Ht. repeat split.
Defined.

(** ** Further facts of binary32 arithmetic *)

Lemma sub_poszero (x : float) : x - S754_zero false = x.
Proof. destruct x as [s | s | | s m e]; try destruct s; reflexivity. Qed.

(** The product with 1.0f of a canonical number is exact. *)
Lemma mul_one (x : float) : valid32 x = true -> x * f1 = x.
Proof.
  destruct x as [s | s | | s m e];
    [destruct s; reflexivity | destruct s; reflexivity | reflexivity | ].
  unfold valid32, valid_binary, bounded, canonical_mantissa. intros Hb.
  apply andb_prop in Hb. destruct Hb as [Hc He].
  apply Z.eqb_eq in Hc. apply Z.leb_le in He.
  unfold F32.mul, f1, SFmul. rewrite xorb_false_r, Pos.mul_comm.
  cbn [Pos.mul]. unfold binary_round_aux.
  match goal with |- context [shr_fexp ?p ?q (Zpos ?mm) ?ee loc_Exact] =>
    assert (H1 : shr_fexp p q (Zpos mm) ee loc_Exact
                 = (Build_shr_record (Zpos m) false false, e))
  end.
  { unfold shr_fexp. cbn [Zdigits2 digits2_pos].
    match goal with |- context [(fexp ?p ?q ?a - ?b)%Z] =>
      replace (fexp p q a - b)%Z with 23%Z
    end.
    - unfold shr. cbn. f_equal. lia.
    - match goal with |- context [fexp ?p ?q ?a] =>
        replace a with (Z.pos (digits2_pos m) + e)%Z by lia
      end.
      rewrite Hc. lia. }
  rewrite H1. cbn [shr_m loc_of_shr_record round_nearest_even].
  assert (H2 : shr_fexp F32.prec F32.emax (Zpos m) e loc_Exact
               = (Build_shr_record (Zpos m) false false, e)).
  { unfold shr_fexp. cbn [Zdigits2]. rewrite Hc, Z.sub_diag. reflexivity. }
  rewrite H2. cbn [shr_m].
  destruct (Z.leb_spec e (F32.emax - F32.prec)); [reflexivity | lia].
Qed.

Lemma mul_nan_l (x : float) : S754_nan * x = S754_nan.
Proof. reflexivity. Qed.

Lemma mul_nan_r (x : float) : x * S754_nan = S754_nan.
Proof. destruct x; reflexivity. Qed.

Lemma add_nan_l (x : float) : S754_nan + x = S754_nan.
Proof. reflexivity. Qed.

Lemma add_nan_r (x : float) : x + S754_nan = S754_nan.
Proof. destruct x; reflexivity. Qed.

Lemma sub_nan_l (x : float) : S754_nan - x = S754_nan.
Proof. reflexivity. Qed.

Lemma div_nan_l (x : float) : S754_nan / x = S754_nan.
Proof. reflexivity. Qed.

Lemma is_nan_eq (x : float) : is_nan x = true -> x = S754_nan.
Proof. destruct x; simpl; intros H; try discriminate; reflexivity. Qed.

Lemma is_zero_eq (x : float) : is_zero x = true -> exists s, x = S754_zero s.
Proof. destruct x; simpl; intros H; try discriminate; eauto. Qed.

(** ** Calibration with unit scale *)

(** X1.  With unit scales, zero static bias and no board rotation, the
    published accels are the raw sample itself, for every sample made of
    binary32 numbers (zeros of either sign, infinities and NaN included); so
    are the published gyros when the bias correction is off. *)
Theorem unit_calibration_is_exact (w : World)
  (accels : pios_sensor_accel_data.t) (gyros : pios_sensor_gyro_data.t) :
  truthy (rotate (statics w)) = false ->
  accel_scale (statics w) = mk3 f1 f1 f1 ->
  accel_bias (statics w) = mk3 f0 f0 f0 ->
  gyro_scale (statics w) = mk3 f1 f1 f1 ->
  bias_correct_gyro (statics w) = false ->
  (forall i, valid32 (accel_raw accels i) = true) ->
  (forall i, valid32 (gyro_raw gyros i) = true) ->
  Accels (objects (update_accels accels w))
  = AccelsData.mk (pios_sensor_accel_data.x accels) (pios_sensor_accel_data.y accels)
                  (pios_sensor_accel_data.z accels) (pios_sensor_accel_data.temp accels) /\
  Gyros (objects (update_gyros gyros w))
  = GyrosData.mk (pios_sensor_gyro_data.x gyros) (pios_sensor_gyro_data.y gyros)
                 (pios_sensor_gyro_data.z gyros) (pios_sensor_gyro_data.temp gyros).
Proof.
  intros Hr Has Hab Hgs Hbc Hva Hvg.
  pose proof (Hva I0) as Ha0. pose proof (Hva I1) as Ha1. pose proof (Hva I2) as Ha2.
  pose proof (Hvg I0) as Hg0. pose proof (Hvg I1) as Hg1. pose proof (Hvg I2) as Hg2.
  simpl in Ha0, Ha1, Ha2, Hg0, Hg1, Hg2.
  unfold update_accels, update_gyros, board_rotate.
  rewrite Hr, Has, Hab, Hgs, Hbc. simpl.
  change (S754_finite false 8388608 (-23)) with f1.
  rewrite !mul_one by assumption. unfold f0. rewrite !sub_poszero.
  split; reflexivity.
Qed.

Lemma unit_calibration_is_exact_witness :
  let w := bench f0 zero3 (MagBiasData.mk f0 f0 f0) in
  Accels (objects (update_accels (pios_sensor_accel_data.mk f1_5 (- f22) S754_nan f25) w))
  = AccelsData.mk f1_5 (- f22) S754_nan f25 /\
  Gyros (objects (update_gyros (pios_sensor_gyro_data.mk (S754_zero true) f_quarter f6 f20) w))
  = GyrosData.mk (S754_zero true) f_quarter f6 f20.
Proof.
  cbv zeta.
  apply (@unit_calibration_is_exact (bench f0 zero3 (MagBiasData.mk f0 f0 f0))
           (pios_sensor_accel_data.mk f1_5 (- f22) S754_nan f25)
           (pios_sensor_gyro_data.mk (S754_zero true) f_quarter f6 f20));
    try reflexivity; intros i; destruct i; reflexivity.
Defined.

(** ** Inputs that the estimator discards *)

Lemma sub_nan_r (x : float) : x - S754_nan = S754_nan.
Proof. destruct x; reflexivity. Qed.

Lemma mag_B_e_nan (L : Library) (w : World) (m : MagnetometerData.t) :
  any_nan (mk3 (MagnetometerData.x m) (MagnetometerData.y m) (MagnetometerData.z m)) = true ->
  mag_B_e L w m = mk3 S754_nan S754_nan S754_nan.
Proof.
  destruct m as [mx my mz]. unfold any_nan. simpl. intros H.
  apply orb_prop in H. destruct H as [H | H]; [apply orb_prop in H; destruct H as [H | H] |];
    apply is_nan_eq in H; subst; unfold mag_B_e; simpl;
    rewrite !mul_nan_r, ?add_nan_r, ?add_nan_l; reflexivity.
Qed.

Lemma mag_delta_nan_xy (L : Library) (w : World) (m : MagnetometerData.t) :
  fst (mag_xy L w m) / mag_xy_norm L w m = S754_nan ->
  any_nan (mag_delta L w m) = true.
Proof.
  intros H. unfold any_nan, mag_delta. cbn [nth3 el0].
  rewrite H, mul_nan_l, sub_nan_l, mul_nan_r. reflexivity.
Qed.

Lemma estimator_run_inert (L : Library) (mag : MagnetometerData.t) (w : World) :
  any_nan (mag_delta L w (remove_bias mag (MagBias (objects w)))) = true ->
  forall n, estimator_run L n mag w = w.
Proof.
  intros H n. induction n as [| n IH]; [reflexivity |].
  simpl. rewrite magOffsetEstimation_eq, H. exact IH.
Qed.

(** X2.  A NaN in a component of the measurement, or of the stored bias
    estimate, makes the correction NaN: the estimator hands on the
    measurement less the estimate and leaves the whole state as it is,
    however often it runs.  In particular an estimate that holds a NaN is
    never repaired by the estimator. *)
Theorem estimator_ignores_nan (L : Library) (mag : MagnetometerData.t) (w : World) :
  let magBias := MagBias (objects w) in
  any_nan (mk3 (MagnetometerData.x mag) (MagnetometerData.y mag) (MagnetometerData.z mag))
  = true \/
  any_nan (mk3 (MagBiasData.x magBias) (MagBiasData.y magBias) (MagBiasData.z magBias))
  = true ->
  snd (magOffsetEstimation L mag w) = w /\
  forall n, estimator_run L n mag w = w.
Proof.
  intros magBias H.
  assert (Hm : any_nan (mk3 (MagnetometerData.x (remove_bias mag magBias))
                            (MagnetometerData.y (remove_bias mag magBias))
                            (MagnetometerData.z (remove_bias mag magBias))) = true).
  { destruct mag as [mx my mz], magBias as [bx by_ bz]. unfold any_nan in *.
    simpl in *. destruct H as [H | H];
      (apply orb_prop in H; destruct H as [H | H];
       [apply orb_prop in H; destruct H as [H | H] |]);
      apply is_nan_eq in H; subst; rewrite ?sub_nan_r; simpl;
      rewrite ?orb_true_r; reflexivity. }
  assert (Hd : any_nan (mag_delta L w (remove_bias mag magBias)) = true).
  { apply mag_delta_nan_xy. unfold mag_xy. rewrite (mag_B_e_nan L w _ Hm).
    cbn [nth3 el0 el1 fst]. now rewrite mul_nan_r, add_nan_l. }
  split.
  - rewrite magOffsetEstimation_eq. fold magBias. now rewrite Hd.
  - now apply estimator_run_inert.
Qed.

Lemma estimator_ignores_nan_witness :
  estimator_run level_library 3 nan_mag fast_bench = fast_bench.
Proof.
  apply (@estimator_ignores_nan level_library nan_mag fast_bench (or_introl eq_refl)).
Defined.

(** X3.  A measurement whose horizontal part, once the estimate is removed
    and the field is turned by the yaw, is zero on both axes has the
    horizontal magnitude 0 and the direction 0/0: the correction is NaN and
    the estimator leaves the whole state as it is, however often it runs. *)
Theorem estimator_ignores_zero_horizontal (L : Library) (mag : MagnetometerData.t)
  (w : World) :
  let xy := mag_xy L w (remove_bias mag (MagBias (objects w))) in
  is_zero (fst xy) = true -> is_zero (snd xy) = true ->
  mag_xy_norm L w (remove_bias mag (MagBias (objects w))) = S754_zero false /\
  snd (magOffsetEstimation L mag w) = w /\
  forall n, estimator_run L n mag w = w.
Proof.
  intros xy Hx Hy.
  destruct (is_zero_eq _ Hx) as (sx & Ex). destruct (is_zero_eq _ Hy) as (sy & Ey).
  assert (Hn : mag_xy_norm L w (remove_bias mag (MagBias (objects w))) = S754_zero false).
  { unfold mag_xy_norm. fold xy. rewrite Ex, Ey. destruct sx, sy; reflexivity. }
  assert (Hd : any_nan (mag_delta L w (remove_bias mag (MagBias (objects w)))) = true).
  { apply mag_delta_nan_xy. fold xy. rewrite Hn, Ex. reflexivity. }
  split; [exact Hn |]. split.
  - rewrite magOffsetEstimation_eq. now rewrite Hd.
  - now apply estimator_run_inert.
Qed.

Lemma estimator_ignores_zero_horizontal_witness :
  estimator_run level_library 3 (MagnetometerData.mk f2 f0 f1) nan_bench = nan_bench.
Proof.
  apply (@estimator_ignores_zero_horizontal level_library (MagnetometerData.mk f2 f0 f1)
           nan_bench eq_refl eq_refl).
Defined.

(** ** A reload of the settings and what is published after it *)

(** The callback in one piece. *)
Lemma settingsUpdatedCb_eq (L : Library) (w : World) :
  settingsUpdatedCb L w
  = let o := objects w in
    let s := InertialSensorSettings o in
    let c := RevoCalibration o in
    let r := AttitudeSettingsData.BoardRotation (AttitudeSettings o) in
    let level := (r[[I0]] =? 0)%Z && (r[[I1]] =? 0)%Z && (r[[I2]] =? 0)%Z in
    let R := Quaternion2R L (RPY2Quaternion L (mk3 (F32.of_int r[[I0]] / f100)
                                                   (F32.of_int r[[I1]] / f100)
                                                   (F32.of_int r[[I2]] / f100))) in
    let zero := MagBiasData.mk (S754_zero false) (S754_zero false) (S754_zero false) in
    mkWorld
      (mkStatics c (INSSettings o)
                 (AttitudeSettingsData.BiasCorrectGyro (AttitudeSettings o)
                  =? ATTITUDESETTINGS_BIASCORRECTGYRO_TRUE)%Z
                 (mk3 (RevoCalibrationData.MagBias c)[[I0]]
                      (RevoCalibrationData.MagBias c)[[I1]]
                      (RevoCalibrationData.MagBias c)[[I2]])
                 (mk3 (RevoCalibrationData.MagScale c)[[I0]]
                      (RevoCalibrationData.MagScale c)[[I1]]
                      (RevoCalibrationData.MagScale c)[[I2]])
                 (mk3 (InertialSensorSettingsData.AccelBias s)[[I0]]
                      (InertialSensorSettingsData.AccelBias s)[[I1]]
                      (InertialSensorSettingsData.AccelBias s)[[I2]])
                 (mk3 (InertialSensorSettingsData.AccelScale s)[[I0]]
                      (InertialSensorSettingsData.AccelScale s)[[I0]]
                      (InertialSensorSettingsData.AccelScale s)[[I0]])
                 (mk3 (InertialSensorSettingsData.GyroScale s)[[I0]]
                      (InertialSensorSettingsData.GyroScale s)[[I0]]
                      (InertialSensorSettingsData.GyroScale s)[[I0]])
                 (if level then Rbs (statics w) else R)
                 (if level then 0%Z else 1%Z))
      (store_MagBias zero o) (queues w) (trace w ++ [MagBiasSet zero]).
Proof.
  unfold settingsUpdatedCb. cbv zeta. destruct (_ && _); reflexivity.
Qed.

(** X4.  The settings callback is idempotent on the state: a second run
    right after the first leaves the statics, the object store and the
    queues as the first made them, and only publishes the zero bias estimate
    once more. *)
Theorem settingsUpdatedCb_idempotent (L : Library) (w : World) :
  let w1 := settingsUpdatedCb L w in
  let w2 := settingsUpdatedCb L w1 in
  statics w2 = statics w1 /\ objects w2 = objects w1 /\ queues w2 = queues w1 /\
  trace w2 = trace w1 ++ [MagBiasSet (MagBias (objects w1))].
Proof.
  cbv zeta. rewrite (settingsUpdatedCb_eq L (settingsUpdatedCb L w)).
  rewrite (settingsUpdatedCb_eq L w). destruct w as [g o q t]. destruct o. cbn.
  destruct (_ && _); repeat split.
Qed.

(** X5.  From the settings to the published accels and gyros.  After a
    reload, the accels are [raw_i * AccelScale_X - AccelBias_i] and the
    gyros [raw_i * GyroScale_X], less the gyro bias when [BiasCorrectGyro]
    is TRUE; both are turned by the matrix of the configured board rotation
    (hundredths of a degree) unless the three angles are zero, in which case
    the matrix left in [Rbs] is not used. *)
Theorem reload_then_update_accels_gyros (L : Library) (w : World)
  (accels : pios_sensor_accel_data.t) (gyros : pios_sensor_gyro_data.t) :
  let s := InertialSensorSettings (objects w) in
  let AccelScale := InertialSensorSettingsData.AccelScale s in
  let AccelBias := InertialSensorSettingsData.AccelBias s in
  let GyroScale := InertialSensorSettingsData.GyroScale s in
  let a := AttitudeSettings (objects w) in
  let r := AttitudeSettingsData.BoardRotation a in
  let R := Quaternion2R L (RPY2Quaternion L (mk3 (F32.of_int r[[I0]] / f100)
                                                 (F32.of_int r[[I1]] / f100)
                                                 (F32.of_int r[[I2]] / f100))) in
  let turn v :=
    if (r[[I0]] =? 0)%Z && (r[[I1]] =? 0)%Z && (r[[I2]] =? 0)%Z then v
    else rot_mult R v false in
  let va :=
    turn (mk3 (accel_raw accels I0 * AccelScale[[I0]] - AccelBias[[I0]])
              (accel_raw accels I1 * AccelScale[[I0]] - AccelBias[[I1]])
              (accel_raw accels I2 * AccelScale[[I0]] - AccelBias[[I2]])) in
  let vg :=
    turn (mk3 (gyro_raw gyros I0 * GyroScale[[I0]])
              (gyro_raw gyros I1 * GyroScale[[I0]])
              (gyro_raw gyros I2 * GyroScale[[I0]])) in
  let b := GyrosBias (objects w) in
  let w' := settingsUpdatedCb L w in
  Accels (objects (update_accels accels w'))
  = AccelsData.mk va[[I0]] va[[I1]] va[[I2]] (pios_sensor_accel_data.temp accels) /\
  Gyros (objects (update_gyros gyros w'))
  = if (AttitudeSettingsData.BiasCorrectGyro a =? ATTITUDESETTINGS_BIASCORRECTGYRO_TRUE)%Z
    then GyrosData.mk (vg[[I0]] - GyrosBiasData.x b) (vg[[I1]] - GyrosBiasData.y b)
                      (vg[[I2]] - GyrosBiasData.z b) (pios_sensor_gyro_data.temp gyros)
    else GyrosData.mk vg[[I0]] vg[[I1]] vg[[I2]] (pios_sensor_gyro_data.temp gyros).
Proof.
  cbv zeta. unfold update_accels, update_gyros, board_rotate, settingsUpdatedCb.
  cbv zeta. cbn [objects do_MagBiasSet emit set_objects statics].
  destruct (_ && _); cbn;
    destruct (AttitudeSettingsData.BiasCorrectGyro _ =? _)%Z; split; reflexivity.
Qed.

(** X6.  From the settings to the published mag.  After a reload the bias
    estimate is zero, so the first mag record published is
    [raw_i * MagScale_i - MagBias_i], turned by the board rotation unless
    its angles are zero, whatever the nulling rate. *)
Theorem reload_then_update_mags (L : Library) (w : World) (mag : pios_sensor_mag_data.t) :
  let c := RevoCalibration (objects w) in
  let MagScale := RevoCalibrationData.MagScale c in
  let MagBias := RevoCalibrationData.MagBias c in
  let r := AttitudeSettingsData.BoardRotation (AttitudeSettings (objects w)) in
  let R := Quaternion2R L (RPY2Quaternion L (mk3 (F32.of_int r[[I0]] / f100)
                                                 (F32.of_int r[[I1]] / f100)
                                                 (F32.of_int r[[I2]] / f100))) in
  let out := mk3 (mag_raw mag I0 * MagScale[[I0]] - MagBias[[I0]])
                 (mag_raw mag I1 * MagScale[[I1]] - MagBias[[I1]])
                 (mag_raw mag I2 * MagScale[[I2]] - MagBias[[I2]]) in
  let v :=
    if (r[[I0]] =? 0)%Z && (r[[I1]] =? 0)%Z && (r[[I2]] =? 0)%Z then out
    else rot_mult R out false in
  Magnetometer (objects (update_mags L mag (settingsUpdatedCb L w)))
  = MagnetometerData.mk v[[I0]] v[[I1]] v[[I2]].
Proof.
  cbv zeta. unfold update_mags.
  destruct (F32.ltb _ _).
  - rewrite magOffsetEstimation_eq.
    assert (Hb : MagBias (objects (settingsUpdatedCb L w))
                 = MagBiasData.mk (S754_zero false) (S754_zero false) (S754_zero false)).
    { unfold settingsUpdatedCb. cbv zeta. destruct (_ && _); reflexivity. }
    rewrite Hb. unfold remove_bias. cbn [MagBiasData.x MagBiasData.y MagBiasData.z].
    rewrite !sub_poszero.
    assert (Hp : forall (b : bool) (m : MagnetometerData.t) (x y : World),
               Magnetometer (objects (let '(magData, w0) := if b then (m, x) else (m, y) in
                                      do_MagnetometerSet magData w0)) = m).
    { intros b m x y. destruct b; reflexivity. }
    rewrite Hp. unfold board_rotate, settingsUpdatedCb. cbv zeta.
    destruct (_ && _); reflexivity.
  - unfold board_rotate, settingsUpdatedCb. cbv zeta.
    destruct (_ && _); reflexivity.
Qed.

(** ** Whole cycles *)

(** Unfolds the publications of a goal down to the fields of the state. *)
Ltac publish :=
  unfold do_MagnetometerSet, do_MagBiasSet, do_AccelsSet, do_GyrosSet, emit,
    set_objects;
  cbn [trace objects statics queues fst snd].

Lemma mag_delta_congr (L : Library) (w1 w2 : World) (m : MagnetometerData.t) :
  statics w1 = statics w2 ->
  HomeLocation (objects w1) = HomeLocation (objects w2) ->
  AttitudeActual (objects w1) = AttitudeActual (objects w2) ->
  mag_delta L w1 m = mag_delta L w2 m.
Proof.
  intros Hs Hh Ha.
  unfold mag_delta, mag_xy_norm, mag_xy, mag_B_e, mag_Rxy, mag_Rz, yaw_rad.
  now rewrite Hs, Hh, Ha.
Qed.

(** [update_mags] on a state, told by its outcome on a state with the same
    statics, bias estimate, home location and attitude. *)
Lemma update_mags_rel (L : Library) (m : pios_sensor_mag_data.t) (w1 w2 : World) :
  statics w1 = statics w2 ->
  MagBias (objects w1) = MagBias (objects w2) ->
  HomeLocation (objects w1) = HomeLocation (objects w2) ->
  AttitudeActual (objects w1) = AttitudeActual (objects w2) ->
  exists mid,
    forallb is_mag_event mid = true /\
    forallb is_publication mid = true /\
    trace (update_mags L m w2) = trace w2 ++ mid /\
    update_mags L m w1
    = mkWorld (statics w1)
              (store_Magnetometer (Magnetometer (objects (update_mags L m w2)))
                 (store_MagBias (MagBias (objects (update_mags L m w2))) (objects w1)))
              (queues w1) (trace w1 ++ mid).
Proof.
  intros Hs Hb Hh Ha.
  assert (Hd : forall x, mag_delta L w1 x = mag_delta L w2 x)
    by (intros x; now apply mag_delta_congr).
  destruct w1 as [s1 o1 q1 t1]. destruct o1. simpl in Hs, Hb, Hh, Ha. subst.
  unfold update_mags. cbn [statics].
  destruct (F32.ltb _ _).
  - rewrite !magOffsetEstimation_eq. cbn [objects MagBias]. rewrite Hd.
    destruct (any_nan _).
    + eexists. (split; [| split; [| split] ]);
        [ | | publish; reflexivity | ]; reflexivity.
    + eexists. (split; [| split; [| split] ]);
        [ | | publish; rewrite <- app_assoc; reflexivity | ];
        try reflexivity. publish. rewrite <- app_assoc. reflexivity.
  - eexists. (split; [| split; [| split] ]);
      [ | | publish; reflexivity | ]; reflexivity.
Qed.

Lemma world_eq (w w' : World) :
  statics w = statics w' -> objects w = objects w' -> queues w = queues w' ->
  trace w = trace w' -> w = w'.
Proof. destruct w, w'; simpl; congruence. Qed.

Lemma pair_world_eq (r : bool * World) (b : bool) (w : World) :
  fst r = b -> statics (snd r) = statics w -> objects (snd r) = objects w ->
  queues (snd r) = queues w -> trace (snd r) = trace w -> r = (b, w).
Proof.
  destruct r as [b' w']. simpl. intros -> Hs Ho Hq Ht. f_equal.
  now apply world_eq.
Qed.

(** An iteration that receives a gyro and an accel sample, in one piece. *)
Lemma cycle_success (L : Library) (error : bool) (w : World)
  (g : pios_sensor_gyro_data.t) (gs : list pios_sensor_gyro_data.t)
  (a : pios_sensor_accel_data.t) (as_ : list pios_sensor_accel_data.t) :
  gyro_queue (queues w) = Some (g :: gs) ->
  accel_queue (queues w) = Some (a :: as_) ->
  let da := Accels (objects (update_accels a w)) in
  let dg := Gyros (objects (update_gyros g w)) in
  let o1 := store_Gyros dg (store_Accels da (objects w)) in
  exists mid,
    forallb is_mag_event mid = true /\
    match mag_queue (queues w) with
    | Some (m :: _) => trace (update_mags L m w) = trace w ++ mid
    | _ => mid = []
    end /\
    SensorsTask_cycle L error w
    = (false,
       mkWorld (statics w)
               match mag_queue (queues w) with
               | Some (m :: _) =>
                   store_Magnetometer (Magnetometer (objects (update_mags L m w)))
                     (store_MagBias (MagBias (objects (update_mags L m w))) o1)
               | _ => o1
               end
               (mkQueues (Some gs) (Some as_) (rest_queue (mag_queue (queues w))))
               (trace w ++ head_events error
                        ++ AccelsSet da :: GyrosSet dg :: mid ++ [PIOS_WDG_UpdateFlag])).
Proof.
  intros Hg Ha da dg o1.
  destruct w as [st o [gq aq mq] t]. simpl in Hg, Ha. subst gq aq.
  destruct mq as [ [ | m ms] | ].
  - exists []. split; [reflexivity |]. split; [reflexivity |].
    apply pair_world_eq; destruct error; cbn; rewrite <- ?app_assoc; reflexivity.
  - set (w0 := mkWorld st o (mkQueues (Some (g :: gs)) (Some (a :: as_)) (Some (m :: ms))) t)
      in *.
    set (w1 := mkWorld st o1 (mkQueues (Some gs) (Some as_) (Some ms))
                       (t ++ head_events error ++ [AccelsSet da; GyrosSet dg])).
    assert (Hc : SensorsTask_cycle L error w0
                 = (false, emit PIOS_WDG_UpdateFlag (update_mags L m w1))).
    { unfold SensorsTask_cycle.
      destruct error; cbn -[update_mags]; do 3 f_equal; apply world_eq; cbn;
        rewrite <- ?app_assoc; reflexivity. }
    destruct (update_mags_rel L m w1 w0 eq_refl eq_refl eq_refl eq_refl)
      as (mid & Hm & _ & Ht & He).
    exists mid. split; [exact Hm |]. split; [exact Ht |].
    rewrite Hc, He. f_equal. apply world_eq; cbn; rewrite <- ?app_assoc; reflexivity.
  - exists []. split; [reflexivity |]. split; [reflexivity |].
    apply pair_world_eq; destruct error; cbn; rewrite <- ?app_assoc; reflexivity.
Qed.

(** An iteration in which the gyro or the accel receive fails, in one
    piece. *)
Lemma cycle_failure (L : Library) (error : bool) (w : World) :
  unavailable (gyro_queue (queues w)) \/ unavailable (accel_queue (queues w)) ->
  SensorsTask_cycle L error w
  = (true,
     mkWorld (statics w) (objects w)
             (mkQueues (rest_queue (gyro_queue (queues w)))
                       (accel_queue (queues w)) (mag_queue (queues w)))
             (trace w ++ head_events error)).
Proof.
  intros H. destruct w as [st o [gq aq mq] t]. simpl in H.
  unfold unavailable in H.
  destruct gq as [ [ | g gs] | ]; destruct aq as [ [ | a as_] | ];
    try (exfalso; destruct H as [ [H | H] | [H | H] ]; discriminate);
    apply pair_world_eq; destruct error; cbn; rewrite <- ?app_assoc; reflexivity.
Qed.

Lemma available_cases {A} (queue : option (list A)) :
  unavailable queue \/ exists x rest, queue = Some (x :: rest).
Proof.
  destruct queue as [ [ | x rest] | ]; [left; now right | right; eauto | left; now left].
Qed.

Lemma unavailable_not_head {A} (x : A) (rest : list A) :
  ~ unavailable (Some (x :: rest)).
Proof. intros [H | H]; discriminate. Qed.

(** X7.  The fault flag an iteration leaves does not depend on the flag it
    started with: it is set exactly when the gyro queue, or the accel queue,
    is missing or empty. *)
Theorem cycle_error_iff (L : Library) (error : bool) (w : World) :
  fst (SensorsTask_cycle L error w) = true <->
  unavailable (gyro_queue (queues w)) \/ unavailable (accel_queue (queues w)).
Proof.
  split.
  - intros He.
    destruct (available_cases (gyro_queue (queues w))) as [Hg | (g & gs & Hg)];
      [now left |].
    destruct (available_cases (accel_queue (queues w))) as [Ha | (a & as_ & Ha)];
      [now right |].
    destruct (cycle_success L error w Hg Ha) as (mid & _ & _ & Hc).
    rewrite Hc in He. discriminate.
  - intros H. now rewrite (cycle_failure L error w H).
Qed.

Lemma same_settings_refl (o : UAVObjects) : same_settings o o.
Proof. repeat split. Qed.

Lemma same_settings_trans (o1 o2 o3 : UAVObjects) :
  same_settings o1 o2 -> same_settings o2 o3 -> same_settings o1 o3.
Proof. unfold same_settings. intuition congruence. Qed.

Lemma mag_events_no_inertial (l : list event) :
  forallb is_mag_event l = true -> no_inertial l = true.
Proof.
  unfold no_inertial. induction l as [| e l IH]; [reflexivity |]. simpl.
  intros H. apply andb_prop in H. destruct H as [He Hl].
  rewrite (IH Hl). destruct e; try discriminate; reflexivity.
Qed.

Lemma mag_events_filter (f : event -> bool) (l : list event) :
  (forall e, is_mag_event e = true -> f e = false) ->
  forallb is_mag_event l = true -> filter f l = [].
Proof.
  intros Hf. induction l as [| e l IH]; [reflexivity |]. simpl.
  intros H. apply andb_prop in H. destruct H as [He Hl].
  now rewrite (Hf e He), (IH Hl).
Qed.

(** The two ways an iteration goes. *)
Lemma cycle_events (L : Library) (error : bool) (w : World) :
  let r := SensorsTask_cycle L error w in
  (fst r = true /\
   (unavailable (gyro_queue (queues w)) \/ unavailable (accel_queue (queues w))) /\
   statics (snd r) = statics w /\ objects (snd r) = objects w /\
   trace (snd r) = trace w ++ head_events error) \/
  (exists mid,
      fst r = false /\
      ~ (unavailable (gyro_queue (queues w)) \/ unavailable (accel_queue (queues w))) /\
      statics (snd r) = statics w /\ same_settings (objects w) (objects (snd r)) /\
      forallb is_mag_event mid = true /\
      trace (snd r)
      = trace w ++ head_events error
                ++ AccelsSet (Accels (objects (snd r)))
                   :: GyrosSet (Gyros (objects (snd r))) :: mid ++ [PIOS_WDG_UpdateFlag]).
Proof.
  intros r. subst r.
  destruct (available_cases (gyro_queue (queues w))) as [Hg | (g & gs & Hg)].
  { left. rewrite (cycle_failure L error w (or_introl Hg)). repeat split. now left. }
  destruct (available_cases (accel_queue (queues w))) as [Ha | (a & as_ & Ha)].
  { left. rewrite (cycle_failure L error w (or_intror Ha)). repeat split. now right. }
  right. destruct (cycle_success L error w Hg Ha) as (mid & Hm & _ & Hc).
  exists mid. rewrite Hc. cbn [fst snd statics objects trace].
  split; [reflexivity |]. split.
  { rewrite Hg, Ha. intros [H | H]; eapply unavailable_not_head; eassumption. }
  split; [reflexivity |]. split.
  { destruct (mag_queue (queues w)) as [ [ | m ms] | ]; repeat split. }
  split; [exact Hm |].
  destruct (mag_queue (queues w)) as [ [ | m ms] | ]; reflexivity.
Qed.

Lemma cycle_trace_grows (L : Library) (error : bool) (w : World) :
  exists evs, trace (snd (SensorsTask_cycle L error w)) = trace w ++ evs.
Proof.
  destruct (cycle_events L error w)
    as [(_ & _ & _ & _ & Ht) | (mid & _ & _ & _ & _ & _ & Ht)];
    eexists; exact Ht.
Qed.

(** X8.  An iteration that finds a sample in each of the three queues takes
    one sample off each, publishes the accels, then the gyros, then what
    [update_mags] publishes for the mag sample, and last signals the
    watchdog; the records in the store are those the three update functions
    compute from the state at the start, and the fault flag is clear. *)
Theorem complete_cycle (L : Library) (error : bool) (w : World)
  (g : pios_sensor_gyro_data.t) (gs : list pios_sensor_gyro_data.t)
  (a : pios_sensor_accel_data.t) (as_ : list pios_sensor_accel_data.t)
  (m : pios_sensor_mag_data.t) (ms : list pios_sensor_mag_data.t) :
  gyro_queue (queues w) = Some (g :: gs) ->
  accel_queue (queues w) = Some (a :: as_) ->
  mag_queue (queues w) = Some (m :: ms) ->
  let r := SensorsTask_cycle L error w in
  fst r = false /\
  queues (snd r) = mkQueues (Some gs) (Some as_) (Some ms) /\
  Accels (objects (snd r)) = Accels (objects (update_accels a w)) /\
  Gyros (objects (snd r)) = Gyros (objects (update_gyros g w)) /\
  Magnetometer (objects (snd r)) = Magnetometer (objects (update_mags L m w)) /\
  MagBias (objects (snd r)) = MagBias (objects (update_mags L m w)) /\
  exists mid,
    trace (update_mags L m w) = trace w ++ mid /\
    trace (snd r)
    = trace w ++ head_events error
              ++ [AccelsSet (Accels (objects (snd r)));
                  GyrosSet (Gyros (objects (snd r)))]
              ++ mid ++ [PIOS_WDG_UpdateFlag].
Proof.
  intros Hg Ha Hm r. subst r.
  destruct (cycle_success L error w Hg Ha) as (mid & _ & Ht & Hc).
  rewrite Hm in Ht, Hc. rewrite Hc. cbn [fst snd queues objects trace rest_queue].
  repeat split. exists mid. split; [exact Ht | reflexivity].
Qed.

Lemma complete_cycle_witness :
  let r := SensorsTask_cycle level_library false full_bench in
  fst r = false /\
  queues (snd r) = mkQueues (Some [gyro_sample']) (Some [accel_sample]) (Some []) /\
  trace (snd r)
  = [AlarmsClear; AccelsSet (AccelsData.mk f0 f0 f1 f20);
     GyrosSet (GyrosData.mk f1 f2 f3 f25);
     MagnetometerSet (MagnetometerData.mk f1 f0 f0); PIOS_WDG_UpdateFlag].
Proof.
  cbv zeta.
  destruct (@complete_cycle level_library false full_bench
              gyro_sample [gyro_sample'] accel_sample [accel_sample] mag_sample []
              eq_refl eq_refl eq_refl)
    as (He & Hq & Hacc & Hgy & _ & _ & mid & Hmid & Ht).
  split; [exact He |]. split; [exact Hq |].
  rewrite Ht, Hacc, Hgy.
  assert (Em : mid = [MagnetometerSet (MagnetometerData.mk f1 f0 f0)]).
  { apply (app_inv_head (trace full_bench)). rewrite <- Hmid. reflexivity. }
  rewrite Em. reflexivity.
Defined.

(** X9.  In every iteration a gyro record is published only right after the
    accel record of the same iteration: the iteration either publishes no
    accel and no gyro record at all, or exactly one of each, the accels
    first and the gyros next, and they are the records the store holds at
    its end. *)
Theorem gyros_published_after_accels (L : Library) (error : bool) (w : World) :
  let r := SensorsTask_cycle L error w in
  exists evs,
    trace (snd r) = trace w ++ evs /\
    (no_inertial evs = true \/
     exists pre post,
       evs = pre ++ [AccelsSet (Accels (objects (snd r)));
                     GyrosSet (Gyros (objects (snd r)))] ++ post /\
       no_inertial pre = true /\ no_inertial post = true).
Proof.
  intros r. subst r.
  destruct (cycle_events L error w)
    as [(_ & _ & _ & _ & Ht) | (mid & _ & _ & _ & _ & Hm & Ht)].
  - exists (head_events error). split; [exact Ht |]. left. destruct error; reflexivity.
  - eexists. split; [exact Ht |]. right.
    exists (head_events error), (mid ++ [PIOS_WDG_UpdateFlag]).
    split; [reflexivity |]. split; [destruct error; reflexivity |].
    unfold no_inertial. rewrite forallb_app.
    fold (no_inertial mid). now rewrite (mag_events_no_inertial _ Hm).
Qed.

(** X10.  Of two consecutive iterations at least one signals the watchdog,
    whatever the queues hold and whatever happens to the state between the
    two: an iteration that skips the signal at its end has set the fault
    flag, and the next one starts with the signal. *)
Theorem watchdog_every_two_cycles (L : Library) (error : bool) (w w2 : World) :
  let r1 := SensorsTask_cycle L error w in
  let r2 := SensorsTask_cycle L (fst r1) w2 in
  exists evs1 evs2,
    trace (snd r1) = trace w ++ evs1 /\
    trace (snd r2) = trace w2 ++ evs2 /\
    In PIOS_WDG_UpdateFlag (evs1 ++ evs2).
Proof.
  intros r1 r2. subst r1 r2.
  destruct (cycle_events L error w)
    as [(He & _ & _ & _ & Ht) | (mid & _ & _ & _ & _ & _ & Ht)].
  - rewrite He.
    destruct (cycle_events L true w2)
      as [(_ & _ & _ & _ & Ht2) | (mid2 & _ & _ & _ & _ & _ & Ht2)];
      do 2 eexists; (split; [exact Ht |]); (split; [exact Ht2 |]);
      apply in_or_app; right; left; reflexivity.
  - destruct (cycle_trace_grows L (fst (SensorsTask_cycle L error w)) w2) as (evs2 & Ht2).
    do 2 eexists. split; [exact Ht |]. split; [exact Ht2 |].
    apply in_or_app. left. apply in_or_app. right.
    right. right. apply in_or_app. right. left. reflexivity.
Qed.

Lemma cycle_alarm_once (L : Library) (error : bool) (w : World) :
  exists evs,
    trace (snd (SensorsTask_cycle L error w)) = trace w ++ evs /\
    filter is_alarm_event evs
    = [if error then AlarmsSet SYSTEMALARMS_ALARM_CRITICAL else AlarmsClear].
Proof.
  destruct (cycle_events L error w)
    as [(_ & _ & _ & _ & Ht) | (mid & _ & _ & _ & _ & Hm & Ht)];
    eexists; (split; [exact Ht |]).
  - destruct error; reflexivity.
  - rewrite filter_app. cbn [filter is_alarm_event]. rewrite filter_app.
    rewrite (mag_events_filter is_alarm_event mid); [| | exact Hm].
    + destruct error; reflexivity.
    + intros e. destruct e; simpl; intros H; try discriminate; reflexivity.
Qed.

(** X11.  The alarm of an iteration tells how the previous one went.  Every
    iteration gives the alarm exactly once: it raises the critical alarm
    when the previous iteration found the gyro or the accel queue missing or
    empty, and otherwise clears it, whatever happened to the state in
    between. *)
Theorem alarm_follows_previous_cycle (L : Library) (error : bool) (w w2 : World) :
  let r1 := SensorsTask_cycle L error w in
  let r2 := SensorsTask_cycle L (fst r1) w2 in
  exists evs2,
    trace (snd r2) = trace w2 ++ evs2 /\
    (unavailable (gyro_queue (queues w)) \/ unavailable (accel_queue (queues w)) ->
     filter is_alarm_event evs2 = [AlarmsSet SYSTEMALARMS_ALARM_CRITICAL]) /\
    (~ (unavailable (gyro_queue (queues w)) \/ unavailable (accel_queue (queues w))) ->
     filter is_alarm_event evs2 = [AlarmsClear]).
Proof.
  intros r1 r2. subst r1 r2.
  destruct (cycle_alarm_once L (fst (SensorsTask_cycle L error w)) w2) as (evs2 & Ht & Hf).
  exists evs2. split; [exact Ht |].
  destruct (cycle_events L error w) as [(He & Hu & _) | (mid & He & Hu & _)];
    rewrite He in Hf; split; intros H; try exact Hf; contradiction.
Qed.

Lemma alarm_follows_previous_cycle_witness :
  filter is_alarm_event
         (trace (snd (SensorsTask_cycle level_library
                        (fst (SensorsTask_cycle level_library false full_bench))
                        full_bench)))
  = [AlarmsClear] /\
  filter is_alarm_event
         (trace (snd (SensorsTask_cycle level_library
                        (fst (SensorsTask_cycle level_library false
                                (queue_bench (mkQueues None None None))))
                        full_bench)))
  = [AlarmsSet SYSTEMALARMS_ALARM_CRITICAL].
Proof.
  split.
  - destruct (alarm_follows_previous_cycle level_library false full_bench full_bench)
      as (evs2 & Ht & _ & Hgood).
    rewrite Ht. apply Hgood. intros [H | H]; destruct H as [H | H]; discriminate.
  - destruct (alarm_follows_previous_cycle level_library false
                (queue_bench (mkQueues None None None)) full_bench)
      as (evs2 & Ht & Hbad & _).
    rewrite Ht. exact (Hbad (or_introl (or_introl eq_refl))).
Defined.

(** ** The loop *)

Lemma cycle_keeps_settings (L : Library) (error : bool) (w : World) :
  statics (snd (SensorsTask_cycle L error w)) = statics w /\
  same_settings (objects w) (objects (snd (SensorsTask_cycle L error w))).
Proof.
  destruct (cycle_events L error w)
    as [(_ & _ & Hs & Ho & _) | (mid & _ & _ & Hs & Ho & _)].
  - split; [exact Hs |]. rewrite Ho. apply same_settings_refl.
  - split; assumption.
Qed.

(** X12.  The loop reads the calibration and never writes it: as long as
    what happens between the iterations leaves the statics and the objects
    the module only reads (gyro bias, home location, attitude and the four
    settings objects) as they are, so does any number of iterations. *)
Theorem loop_keeps_settings (L : Library) (env : nat -> World -> World) (n : nat) :
  (forall k v, statics (env k v) = statics v /\
               same_settings (objects v) (objects (env k v))) ->
  forall error w,
    statics (snd (SensorsTask_loop L env n error w)) = statics w /\
    same_settings (objects w) (objects (snd (SensorsTask_loop L env n error w))).
Proof.
  intros Henv. induction n as [| n IH]; intros error w.
  - split; [reflexivity | apply same_settings_refl].
  - simpl. destruct (Henv n w) as (Hs0 & Ho0).
    destruct (cycle_keeps_settings L error (env n w)) as (Hs1 & Ho1).
    destruct (SensorsTask_cycle L error (env n w)) as [e v]. simpl in Hs1, Ho1.
    destruct (IH e v) as (Hs2 & Ho2). split.
    + congruence.
    + eapply same_settings_trans; [| exact Ho2].
      eapply same_settings_trans; eassumption.
Qed.

Lemma loop_keeps_settings_witness :
  statics (snd (SensorsTask_loop level_library gyro_arrives 3 false full_bench))
  = statics full_bench /\
  same_settings (objects full_bench)
    (objects (snd (SensorsTask_loop level_library gyro_arrives 3 false full_bench))).
Proof.
  apply (@loop_keeps_settings level_library gyro_arrives 3).
  intros k v. split; [reflexivity | apply same_settings_refl].
Defined.

Lemma update_gyros_congr (g : pios_sensor_gyro_data.t) (w1 w2 : World) :
  statics w1 = statics w2 -> GyrosBias (objects w1) = GyrosBias (objects w2) ->
  Gyros (objects (update_gyros g w1)) = Gyros (objects (update_gyros g w2)).
Proof. intros Hs Hb. unfold update_gyros. now rewrite Hs, Hb. Qed.

Lemma update_accels_congr (a : pios_sensor_accel_data.t) (w1 w2 : World) :
  statics w1 = statics w2 ->
  Accels (objects (update_accels a w1)) = Accels (objects (update_accels a w2)).
Proof. intros Hs. unfold update_accels. now rewrite Hs. Qed.

(** X13.  Samples are published in the order of their arrival, none twice
    and none left out.  When nothing else touches the state and the gyro and
    accel queues hold at least [n] samples each, [n] iterations take the
    first [n] samples off each queue and publish, in that order, the gyro
    records and the accel records of exactly those samples, each as its
    update function computes it from the state at the start. *)
Theorem loop_publishes_in_order (L : Library) (n : nat) :
  forall (error : bool) (w : World)
         (gs : list pios_sensor_gyro_data.t) (as_ : list pios_sensor_accel_data.t),
    gyro_queue (queues w) = Some gs ->
    accel_queue (queues w) = Some as_ ->
    (n <= length gs)%nat -> (n <= length as_)%nat ->
    let r := SensorsTask_loop L idle n error w in
    fst r = match n with O => error | S _ => false end /\
    gyro_queue (queues (snd r)) = Some (skipn n gs) /\
    accel_queue (queues (snd r)) = Some (skipn n as_) /\
    filter is_GyrosSet (trace (snd r))
    = filter is_GyrosSet (trace w)
      ++ map (fun s => GyrosSet (Gyros (objects (update_gyros s w)))) (firstn n gs) /\
    filter is_AccelsSet (trace (snd r))
    = filter is_AccelsSet (trace w)
      ++ map (fun s => AccelsSet (Accels (objects (update_accels s w)))) (firstn n as_).
Proof.
  induction n as [| n IH]; intros error w gs as_ Hg Ha Hlg Hla; cbv zeta.
  - simpl. rewrite !app_nil_r. repeat split; assumption.
  - destruct gs as [| g gs']; [simpl in Hlg; lia |].
    destruct as_ as [| a as']; [simpl in Hla; lia |].
    simpl in Hlg, Hla. apply le_S_n in Hlg. apply le_S_n in Hla.
    cbn [SensorsTask_loop]. change (idle n w) with w.
    destruct (cycle_success L error w Hg Ha) as (mid & Hm & _ & Hc).
    rewrite Hc. clear Hc.
    match goal with |- context [SensorsTask_loop L idle n false ?W] =>
      remember W as w' eqn:Ew
    end.
    cbn [skipn].
    assert (Hs : statics w' = statics w) by (subst w'; reflexivity).
    assert (Hb : GyrosBias (objects w') = GyrosBias (objects w)).
    { subst w'. cbn [objects].
      destruct (mag_queue (queues w)) as [ [ | m ms] | ]; reflexivity. }
    assert (Hg' : gyro_queue (queues w') = Some gs') by (subst w'; reflexivity).
    assert (Ha' : accel_queue (queues w') = Some as') by (subst w'; reflexivity).
    assert (Htg : filter is_GyrosSet (trace w')
                  = filter is_GyrosSet (trace w)
                    ++ [GyrosSet (Gyros (objects (update_gyros g w)))]).
    { subst w'. cbn [trace]. rewrite !filter_app. cbn [filter is_GyrosSet].
      rewrite filter_app, (mag_events_filter is_GyrosSet mid); [| | exact Hm].
      - destruct error; reflexivity.
      - intros e. destruct e; simpl; intros H; try discriminate; reflexivity. }
    assert (Hta : filter is_AccelsSet (trace w')
                  = filter is_AccelsSet (trace w)
                    ++ [AccelsSet (Accels (objects (update_accels a w)))]).
    { subst w'. cbn [trace]. rewrite !filter_app. cbn [filter is_AccelsSet].
      rewrite filter_app, (mag_events_filter is_AccelsSet mid); [| | exact Hm].
      - destruct error; reflexivity.
      - intros e. destruct e; simpl; intros H; try discriminate; reflexivity. }
    destruct (IH false w' gs' as' Hg' Ha' Hlg Hla) as (He & Hq1 & Hq2 & Hf1 & Hf2).
    split; [rewrite He; destruct n; reflexivity |].
    split; [exact Hq1 |]. split; [exact Hq2 |]. split.
    + rewrite Hf1, Htg, <- app_assoc. cbn [firstn map app]. do 2 f_equal.
      apply map_ext. intros s. f_equal. now apply update_gyros_congr.
    + rewrite Hf2, Hta, <- app_assoc. cbn [firstn map app]. do 2 f_equal.
      apply map_ext. intros s. f_equal. now apply update_accels_congr.
Qed.

Lemma loop_publishes_in_order_witness :
  let r := SensorsTask_loop level_library idle 2 false full_bench in
  fst r = false /\
  gyro_queue (queues (snd r)) = Some [] /\
  filter is_GyrosSet (trace (snd r))
  = [GyrosSet (GyrosData.mk f1 f2 f3 f25); GyrosSet (GyrosData.mk f3 f2 f1 f25)].
Proof.
  cbv zeta.
  destruct (@loop_publishes_in_order level_library 2 false full_bench
              [gyro_sample; gyro_sample'] [accel_sample; accel_sample]
              eq_refl eq_refl (le_n 2) (le_n 2))
    as (He & Hq & _ & Hf & _).
  rewrite He, Hq, Hf. repeat split.
Defined.

(** ** Convergence of the bias estimate when no operation rounds *)









(** *** The level attitude *)

Lemma mul_comm (x y : float) : x * y = y * x.
Proof.
  destruct x as [sx | sx | | sx mx ex], y as [sy | sy | | sy my ey];
    unfold F32.mul, SFmul; rewrite ?(xorb_comm sx sy); try reflexivity.
  rewrite Pos.mul_comm, Z.add_comm. reflexivity.
Qed.

Lemma mul_one_l (x : float) : valid32 x = true -> f1 * x = x.
Proof. intros H. rewrite mul_comm. apply mul_one, H. Qed.

Lemma mul_zero_l (z x : float) :
  is_zero z = true -> is_finite x = true -> is_zero (z * x) = true.
Proof.
  destruct z; try discriminate. destruct x; try discriminate; reflexivity.
Qed.

(** A canonical finite number, and what stays of it when zeros are added. *)
Lemma add_zero_r (x z : float) :
  is_zero z = true -> is_finite x = true -> valid32 x = true ->
  is_finite (x + z) = true /\ valid32 (x + z) = true /\ (val (x + z) == val x)%Q.
Proof.
  destruct z as [sz | | |]; try discriminate. intros _.
  destruct x as [sx | | | sx mx ex]; try discriminate; intros _ Hv.
  - destruct sx, sz; repeat split.
  - repeat split. exact Hv.
Qed.

Lemma add_zero_l (z x : float) :
  is_zero z = true -> is_finite x = true -> valid32 x = true ->
  is_finite (z + x) = true /\ valid32 (z + x) = true /\ (val (z + x) == val x)%Q.
Proof.
  destruct z as [sz | | |]; try discriminate. intros _.
  destruct x as [sx | | | sx mx ex]; try discriminate; intros _ Hv.
  - destruct sx, sz; repeat split.
  - repeat split. exact Hv.
Qed.

Lemma add_zero_zero (z z' : float) :
  is_zero z = true -> is_zero z' = true -> is_zero (z + z') = true.
Proof.
  destruct z as [s | | |], z' as [s' | | |]; try discriminate.
  destruct s, s'; reflexivity.
Qed.

Lemma is_zero_opp (z : float) : is_zero z = true -> is_zero (- z) = true.
Proof. destruct z; try discriminate; reflexivity. Qed.

(** At a level attitude facing north (the rotation matrix is the identity
    and the yaw has cosine 1 and sine 0), the heading frame is the body
    frame for every canonical finite measurement. *)
Lemma level_attitude_frame (L : Library) (mag : MagnetometerData.t) (w : World) :
  let m := remove_bias mag (MagBias (objects w)) in
  let attitude := AttitudeActual (objects w) in
  Quaternion2R L (AttitudeActualData.q1 attitude, AttitudeActualData.q2 attitude,
                  AttitudeActualData.q3 attitude, AttitudeActualData.q4 attitude)
  = identity3 ->
  cosf L (yaw_rad w) = f1 -> is_zero (sinf L (yaw_rad w)) = true ->
  is_finite (MagnetometerData.x m) = true -> valid32 (MagnetometerData.x m) = true ->
  is_finite (MagnetometerData.y m) = true -> valid32 (MagnetometerData.y m) = true ->
  is_finite (MagnetometerData.z m) = true -> valid32 (MagnetometerData.z m) = true ->
  level_frame L mag w.
Proof.
  intros m attitude HR Hc Hs Hfx Hvx Hfy Hvy Hfz Hvz.
  unfold level_frame. fold m. cbv zeta.
  unfold mag_xy, mag_B_e. fold attitude. rewrite HR, Hc. cbv zeta.
  cbn [identity3 rot_mult nth3 el0 el1 el2 fst snd].
  set (x := MagnetometerData.x m) in *.
  set (y := MagnetometerData.y m) in *.
  set (z := MagnetometerData.z m) in *.
  set (s := sinf L (yaw_rad w)) in *.
  clearbody x y z s. clear HR Hc.
  rewrite (@mul_one_l x Hvx), (@mul_one_l y Hvy), (@mul_one_l z Hvz).
  assert (Zx : is_zero (f0 * x) = true) by (apply mul_zero_l; [reflexivity | exact Hfx]).
  assert (Zy : is_zero (f0 * y) = true) by (apply mul_zero_l; [reflexivity | exact Hfy]).
  assert (Zz : is_zero (f0 * z) = true) by (apply mul_zero_l; [reflexivity | exact Hfz]).
  destruct (@add_zero_r x (f0 * y) Zy Hfx Hvx) as (F1 & V1 & E1).
  destruct (@add_zero_r (x + f0 * y) (f0 * z) Zz F1 V1) as (F0 & V0 & E0).
  destruct (@add_zero_l (f0 * x) y Zx Hfy Hvy) as (G1 & W1 & D1).
  destruct (@add_zero_r (f0 * x + y) (f0 * z) Zz G1 W1) as (G0 & W0 & D0).
  rewrite (@mul_one_l _ V0), (@mul_one_l _ W0).
  split; [| split].
  - destruct (@add_zero_r (x + f0 * y + f0 * z) (s * (f0 * x + y + f0 * z)))
      as (_ & _ & E); try assumption.
    + apply mul_zero_l; assumption.
    + rewrite E, E0, E1. reflexivity.
  - destruct (@add_zero_l ((- s) * (x + f0 * y + f0 * z)) (f0 * x + y + f0 * z))
      as (_ & _ & E); try assumption.
    + apply mul_zero_l; [apply is_zero_opp |]; assumption.
    + rewrite E, D0, D1. reflexivity.
  - destruct (@add_zero_l (f0 * x + f0 * y) z) as (_ & _ & E); try assumption.
    apply add_zero_zero; assumption.
Qed.

(** *** One update *)


(** Rational algebra of one update. *)











